(** * The Kubelet dynamic-configuration controller: bootstrap and fallback

    A shallow embedding of [pkg/kubelet/kubeletconfig/controller.go].  The
    controller's methods are written in a small state monad over the
    controller and the history of its calls to the checkpoint store; Go's
    [(value, error)] returns are kept as tuples of options, and a nil pointer
    dereference is a panic of the monad. *)

From Stdlib Require Import String ZArith List Bool Lia.
Import ListNotations.

Local Open Scope string_scope.
Local Open Scope Z_scope.

(** ** Basic data *)

(** Go's [error]: nil is [None], otherwise the message. *)
Definition error := string.

(** The result of a collaborator call that yields a value or an error. *)
Inductive Result (A : Type) : Type :=
| Ok (a : A)
| Err (e : error).
Arguments Ok {A} a.
Arguments Err {A} e.

Module time.

(** An instant, in nanoseconds on one absolute axis. *)
Definition Time := Z.

(** [time.Duration] is an int64 count of nanoseconds. *)
Definition Duration := Z.

Definition minDuration : Duration := - 2 ^ 63.
Definition maxDuration : Duration := 2 ^ 63 - 1.

(** [t.Sub(u)]: the difference, held at the largest or smallest
    [Duration] when it does not fit. *)
Definition Sub (t u : Time) : Duration :=
  let d := t - u in
  if d <? minDuration then minDuration
  else if maxDuration <? d then maxDuration
  else d.

End time.

Module apiv1.

Inductive ConditionStatus : Type :=
| ConditionTrue
| ConditionFalse
| ConditionUnknown.

End apiv1.

Module kubeletconfig.

(** The configuration object.  The controller reads one field of it, the
    trial duration; [settings] stands for all the others. *)
Record KubeletConfiguration : Type := {
  ConfigTrialDuration : time.Duration;
  settings : string
}.

End kubeletconfig.
Import kubeletconfig.

Module validation.

(** [validation.ValidateKubeletConfiguration], a pure function of package
    [validation]; the controller is verified for every such function. *)
Class Validator : Type :=
  ValidateKubeletConfiguration : KubeletConfiguration -> option error.

End validation.
Import validation.

Module configfiles.

(** A [configfiles.Loader] is known by what its [Load()] yields. *)
Record Loader : Type := {
  Load : Result KubeletConfiguration
}.

End configfiles.

Module checkpoint.

(** A [RemoteConfigSource] is known to the controller by its [UID()]. *)
Record RemoteConfigSource : Type := {
  UID : string
}.

(** A [Checkpoint] is known to the controller by what its [Parse()]
    yields. *)
Record Checkpoint : Type := {
  Parse : Result KubeletConfiguration
}.

End checkpoint.

Module status.

(** Modelled from the spec: the reason constants of package [status],
    which is not part of the sources at hand.  A [...Fmt] constant is
    given as the function [fun uid => fmt.Sprintf(constant, uid)]. *)
Definition CurLocalOkayReason : string := "local-ok".

(** Modelled from the spec: reason of a checkpoint that cannot be loaded. *)
Definition CurFailLoadReasonFmt (uid : string) : string :=
  "load-failed:" ++ uid.

(** Modelled from the spec: reason of a checkpoint that cannot be parsed. *)
Definition CurFailParseReasonFmt (uid : string) : string :=
  "parse-failed:" ++ uid.

(** Modelled from the spec: reason of a checkpoint that fails validation. *)
Definition CurFailValidateReasonFmt (uid : string) : string :=
  "validate-failed:" ++ uid.

(** The remaining constants of package [status] have no value in the
    sources at hand; the controller is verified for every choice of them.
    The source passes [CurRemoteOkayReason] through unformatted. *)
Class Messages : Type := {
  NotDynamicLocalMessage : string;
  NotDynamicLocalReason : string;
  CurLocalMessage : string;
  LkgLocalMessage : string;
  CurRemoteMessageFmt : string -> string;
  LkgRemoteMessageFmt : string -> string;
  CurRemoteOkayReason : string;
  LkgFailLoadReasonFmt : string -> string;
  LkgFailParseReasonFmt : string -> string;
  LkgFailValidateReasonFmt : string -> string
}.

(** The state of a [ConfigOKCondition]: what the last [Set] published,
    if anything. *)
Record Condition : Type := {
  message : string;
  reason : string;
  condStatus : apiv1.ConditionStatus
}.

Definition ConfigOKCondition := option Condition.

Definition NewConfigOKCondition : ConfigOKCondition := None.

(** Modelled from the spec: [Set(message, reason, status)] replaces the
    in-memory condition at once. *)
Definition Set_ (m r : string) (s : apiv1.ConditionStatus)
           (_ : ConfigOKCondition) : ConfigOKCondition :=
  Some {| message := m; reason := r; condStatus := s |}.

End status.

Module store.
Import checkpoint.

(** Modelled from the spec: the checkpoint store behind the [store.Store]
    interface, whose implementation is not part of the sources at hand.
    It holds the two pointers, the modification time of [current] and one
    blob per UID.  Every operation the controller uses may fail: a read
    field holds either the value read or the error of reading it, and
    [initializeErr] and [writeErr] are the errors, if any, that
    [Initialize] and a pointer write run into.  Reads change nothing; a
    failed write changes nothing. *)
Record Store : Type := {
  initializeErr : option error;
  blobs : string -> Result Checkpoint;
  currentPtr : Result (option RemoteConfigSource);
  currentModifiedAt : Result time.Time;
  lastKnownGoodPtr : Result (option RemoteConfigSource);
  writeErr : option error
}.

(** Modelled from the spec: [Initialize() -> error]. *)
Definition Initialize (s : Store) : option error * Store :=
  (initializeErr s, s).

(** Modelled from the spec: [Load(uid) -> (Checkpoint, error)]. *)
Definition Load (uid : string) (s : Store) : Result Checkpoint * Store :=
  (blobs s uid, s).

(** Modelled from the spec: [CurrentModified() -> (timestamp, error)]. *)
Definition CurrentModified (s : Store) : Result time.Time * Store :=
  (currentModifiedAt s, s).

(** Modelled from the spec: [Current() -> (record or absent, error)]. *)
Definition Current (s : Store) : Result (option RemoteConfigSource) * Store :=
  (currentPtr s, s).

(** Modelled from the spec: [LastKnownGood() -> (record or absent, error)]. *)
Definition LastKnownGood (s : Store)
  : Result (option RemoteConfigSource) * Store :=
  (lastKnownGoodPtr s, s).

(** Modelled from the spec: [SetLastKnownGood(record or absent) -> error];
    when it succeeds the pointer holds the value written. *)
Definition SetLastKnownGood (source : option RemoteConfigSource) (s : Store)
  : option error * Store :=
  match writeErr s with
  | Some e => (Some e, s)
  | None =>
      (None,
       {| initializeErr := initializeErr s;
          blobs := blobs s;
          currentPtr := currentPtr s;
          currentModifiedAt := currentModifiedAt s;
          lastKnownGoodPtr := Ok source;
          writeErr := writeErr s |})
  end.

(** The calls the controller can make on the store. *)
Inductive Call : Type :=
| CallInitialize
| CallLoad (uid : string)
| CallCurrentModified
| CallCurrent
| CallLastKnownGood
| CallSetLastKnownGood (source : option RemoteConfigSource).

End store.

(** ** Channels *)

(** A buffered Go channel of booleans: the queued values, oldest first, and
    the capacity it was made with. *)
Record Chan : Type := {
  buf : list bool;
  cap : nat
}.

(** [make(chan bool, n)]. *)
Definition make_chan (n : nat) : Chan := {| buf := []; cap := n |}.

(** Modelled from the spec: raising the pending-change signal is a send
    that never blocks; the value is dropped when the channel is full.  The
    functions that send on and receive from [pendingConfigSource] are not
    part of the sources at hand. *)
Definition raisePending (c : Chan) : Chan :=
  if (length (buf c) <? cap c)%nat
  then {| buf := (buf c ++ [true])%list; cap := cap c |}
  else c.

(** Modelled from the spec: consuming the signal is a receive that never
    blocks; it reports whether a value was pending and takes it out. *)
Definition consumePending (c : Chan) : bool * Chan :=
  match buf c with
  | [] => (false, c)
  | _ :: rest => (true, {| buf := rest; cap := cap c |})
  end.

Fixpoint raiseTimes (n : nat) (c : Chan) : Chan :=
  match n with
  | O => c
  | S k => raiseTimes k (raisePending c)
  end.

(** What the spec calls pending: the slot holds a value. *)
Definition pending (c : Chan) : bool :=
  match buf c with
  | [] => false
  | _ :: _ => true
  end.

(** ** The controller *)

(** [Controller], field by field; [informer] is nil until [StartSync] and
    plays no part before it. *)
Record Controller : Type := {
  dynamicConfig : bool;
  defaultConfig : KubeletConfiguration;
  fileLoader : option configfiles.Loader;
  pendingConfigSource : Chan;
  configOK : status.ConfigOKCondition;
  checkpointStore : store.Store
}.

(** The state a method runs in: the controller and the calls made on the
    checkpoint store so far, oldest first. *)
Record World : Type := {
  cc : Controller;
  trace : list store.Call
}.

(** A method either returns a value in a new state or panics ([None]). *)
Definition M (A : Type) : Type := World -> option (A * World).

Definition ret {A : Type} (a : A) : M A := fun w => Some (a, w).

Definition bind {A B : Type} (m : M A) (k : A -> M B) : M B :=
  fun w =>
    match m w with
    | Some (a, w') => k a w'
    | None => None
    end.

Definition panic {A : Type} : M A := fun _ => None.

Definition gets {A : Type} (f : Controller -> A) : M A :=
  fun w => Some (f (cc w), w).

Declare Scope go_scope.
Delimit Scope go_scope with go.
Notation "x <- m ;; k" := (bind m (fun x => k))
  (at level 61, m at next level, right associativity) : go_scope.
Notation "' p <- m ;; k" := (bind m (fun x => match x with p => k end))
  (at level 61, p pattern, m at next level, right associativity) : go_scope.
Notation "m ;;; k" := (bind m (fun _ => k))
  (at level 61, right associativity) : go_scope.
Local Open Scope go_scope.

Definition withStore (s : store.Store) (c : Controller) : Controller :=
  {| dynamicConfig := dynamicConfig c;
     defaultConfig := defaultConfig c;
     fileLoader := fileLoader c;
     pendingConfigSource := pendingConfigSource c;
     configOK := configOK c;
     checkpointStore := s |}.

Definition withConfigOK (k : status.ConfigOKCondition) (c : Controller)
  : Controller :=
  {| dynamicConfig := dynamicConfig c;
     defaultConfig := defaultConfig c;
     fileLoader := fileLoader c;
     pendingConfigSource := pendingConfigSource c;
     configOK := k;
     checkpointStore := checkpointStore c |}.

(** [cc.checkpointStore.op(...)]: run the operation on the store and note the
    call. *)
Definition onStore {A : Type} (call : store.Call)
           (op : store.Store -> A * store.Store) : M A :=
  fun w =>
    let (a, s) := op (checkpointStore (cc w)) in
    Some (a, {| cc := withStore s (cc w);
                trace := (trace w ++ [call])%list |}).

(** [cc.configOK.Set(message, reason, status)]. *)
Definition configOK_Set (m r : string) (s : apiv1.ConditionStatus) : M unit :=
  fun w =>
    Some (tt, {| cc := withConfigOK (status.Set_ m r s (configOK (cc w))) (cc w);
                 trace := trace w |}).

(** [fmt.Errorf("%s, error: %v", reason, err)]. *)
Definition reasonError (r : string) (err : error) : error :=
  r ++ ", error: " ++ err.

Section Methods.
Import checkpoint.
Context {msgs : status.Messages} {validator : Validator}.

(** [loadLocalConfig]: the defaults, or the local config file when the
    controller has a loader; both are validated. *)
Definition loadLocalConfig : M (option KubeletConfiguration * option error) :=
  dflt <- gets defaultConfig ;;
  match ValidateKubeletConfiguration dflt with
  | Some err =>
      ret (None,
           Some ("combination of defaults and flags failed validation, error: "
                   ++ err))
  | None =>
      loader <- gets fileLoader ;;
      match loader with
      | Some l =>
          match configfiles.Load l with
          | Err err => ret (None, Some err)
          | Ok kc =>
              match ValidateKubeletConfiguration kc with
              | Some err =>
                  ret (None,
                       Some ("failed to validate the Kubelet config file, error: "
                               ++ err))
              | None => ret (Some kc, None)
              end
          end
      | None => ret (Some dflt, None)
      end
  end.

(** [loadAssignedConfig]: the configuration the [current] pointer
    designates, the pointer, a reason for the status, and the error. *)
Definition loadAssignedConfig (local : option KubeletConfiguration)
  : M (option KubeletConfiguration * option RemoteConfigSource
       * string * option error) :=
  r <- onStore store.CallCurrent store.Current ;;
  match r with
  | Err err => ret (None, None, status.CurFailLoadReasonFmt "unknown", Some err)
  | Ok None => ret (local, None, status.CurLocalOkayReason, None)
  | Ok (Some src) =>
      let curUID := UID src in
      r <- onStore (store.CallLoad curUID) (store.Load curUID) ;;
      match r with
      | Err err =>
          ret (None, Some src, status.CurFailLoadReasonFmt curUID, Some err)
      | Ok checkpoint =>
          match Parse checkpoint with
          | Err err =>
              ret (None, Some src, status.CurFailParseReasonFmt curUID, Some err)
          | Ok cur =>
              match ValidateKubeletConfiguration cur with
              | Some err =>
                  ret (None, Some src,
                       status.CurFailValidateReasonFmt curUID, Some err)
              | None =>
                  ret (Some cur, Some src, status.CurRemoteOkayReason, None)
              end
          end
      end
  end.

(** [loadLastKnownGoodConfig]: the same for the [last-known-good]
    pointer, without a reason. *)
Definition loadLastKnownGoodConfig (local : option KubeletConfiguration)
  : M (option KubeletConfiguration * option RemoteConfigSource
       * option error) :=
  r <- onStore store.CallLastKnownGood store.LastKnownGood ;;
  match r with
  | Err err =>
      ret (None, None,
           Some ("unable to determine last-known-good config, error: " ++ err))
  | Ok None => ret (local, None, None)
  | Ok (Some src) =>
      let lkgUID := UID src in
      r <- onStore (store.CallLoad lkgUID) (store.Load lkgUID) ;;
      match r with
      | Err err =>
          ret (None, Some src,
               Some (reasonError (status.LkgFailLoadReasonFmt lkgUID) err))
      | Ok checkpoint =>
          match Parse checkpoint with
          | Err err =>
              ret (None, Some src,
                   Some (reasonError (status.LkgFailParseReasonFmt lkgUID) err))
          | Ok lkg =>
              match ValidateKubeletConfiguration lkg with
              | Some err =>
                  ret (None, Some src,
                       Some (reasonError
                               (status.LkgFailValidateReasonFmt lkgUID) err))
              | None => ret (Some lkg, Some src, None)
              end
          end
      end
  end.

(** [initializeDynamicConfigDir]. *)
Definition initializeDynamicConfigDir : M (option error) :=
  onStore store.CallInitialize store.Initialize.

(** [inTrial]: whether the time since [current] was last modified does not
    exceed [trialDur]; [now] is what [time.Now()] returns. *)
Definition inTrial (now : time.Time) (trialDur : time.Duration)
  : M (bool * option error) :=
  r <- onStore store.CallCurrentModified store.CurrentModified ;;
  match r with
  | Err err => ret (false, Some err)
  | Ok t =>
      if time.Sub now t <=? trialDur then ret (true, None)
      else ret (false, None)
  end.

(** [graduateAssignedToLastKnownGood]: copy the [current] pointer onto the
    [last-known-good] pointer. *)
Definition graduateAssignedToLastKnownGood : M (option error) :=
  r <- onStore store.CallCurrent store.Current ;;
  match r with
  | Err err => ret (Some err)
  | Ok curUID =>
      err <- onStore (store.CallSetLastKnownGood curUID)
                     (store.SetLastKnownGood curUID) ;;
      match err with
      | Some e => ret (Some e)
      | None => ret None
      end
  end.

(** [Bootstrap].  Logging is left out: it has no effect on the
    controller, the store or the result. *)
Definition Bootstrap (now : time.Time)
  : M (option KubeletConfiguration * option error) :=
  ' (local, err) <- loadLocalConfig ;;
  match err with
  | Some e => ret (None, Some e)
  | None =>
      dyn <- gets dynamicConfig ;;
      if negb dyn then
        configOK_Set status.NotDynamicLocalMessage
                     status.NotDynamicLocalReason apiv1.ConditionTrue ;;;
        ret (local, None)
      else
        err <- initializeDynamicConfigDir ;;
        match err with
        | Some e => ret (None, Some e)
        | None =>
            ' (assigned, curSource, reason, err) <- loadAssignedConfig local ;;
            match err with
            | None =>
                match curSource with
                | Some src =>
                    configOK_Set (status.CurRemoteMessageFmt (UID src))
                                 reason apiv1.ConditionTrue
                | None =>
                    configOK_Set status.CurLocalMessage
                                 reason apiv1.ConditionTrue
                end ;;;
                match assigned with
                | None => panic
                | Some a =>
                    ' (trial, err) <- inTrial now (ConfigTrialDuration a) ;;
                    match err with
                    | Some _ => ret tt
                    | None =>
                        if negb trial then
                          _ <- graduateAssignedToLastKnownGood ;;
                          ret tt
                        else ret tt
                    end ;;;
                    ret (assigned, None)
                end
            | Some _ =>
                ' (lkg, lkgSource, err) <- loadLastKnownGoodConfig local ;;
                match err with
                | Some e => ret (None, Some e)
                | None =>
                    match lkgSource with
                    | Some src =>
                        configOK_Set (status.LkgRemoteMessageFmt (UID src))
                                     reason apiv1.ConditionFalse
                    | None =>
                        configOK_Set status.LkgLocalMessage
                                     reason apiv1.ConditionFalse
                    end ;;;
                    ret (lkg, None)
                end
            end
        end
  end.

End Methods.

(** ** Construction *)

Section Construction.
(** [configfiles.NewFsLoader], [store.NewFsStore] and [filepath.Join] are
    taken as they come; [DefaultFs] is implicit in them. *)
Variable NewFsLoader : string -> Result configfiles.Loader.
Variable NewFsStore : string -> store.Store.
Variable filepath_Join : string -> string -> string.

Definition checkpointsDir : string := "checkpoints".

(** [NewController]. *)
Definition NewController (defaultConfig : KubeletConfiguration)
           (kubeletConfigFile dynamicConfigDir : string)
  : option Controller * option error :=
  let mk (fileLoader : option configfiles.Loader) :=
    let dynamicConfig := (0 <? String.length dynamicConfigDir)%nat in
    (Some {| dynamicConfig := dynamicConfig;
             defaultConfig := defaultConfig;
             pendingConfigSource := make_chan 1;
             configOK := status.NewConfigOKCondition;
             checkpointStore :=
               NewFsStore (filepath_Join dynamicConfigDir checkpointsDir);
             fileLoader := fileLoader |},
     None) in
  if (0 <? String.length kubeletConfigFile)%nat then
    match NewFsLoader kubeletConfigFile with
    | Err err => (None, Some err)
    | Ok l => mk (Some l)
    end
  else mk None.

End Construction.

(** ** Vocabulary of the specification *)

(** The stage at which resolving a checkpoint fails. *)
Inductive Stage : Type :=
| StageLoad
| StageParse
| StageValidate.

(** The failure reason of the assigned configuration, by stage. *)
Definition failReason (st : Stage) (uid : string) : string :=
  match st with
  | StageLoad => status.CurFailLoadReasonFmt uid
  | StageParse => status.CurFailParseReasonFmt uid
  | StageValidate => status.CurFailValidateReasonFmt uid
  end.

Section Vocabulary.
Context {validator : Validator}.

(** What the store holds for a UID: a configuration that loads, parses and
    validates, or the first stage that fails, with its error. *)
Definition checkpointState (s : store.Store) (uid : string)
  : KubeletConfiguration + Stage * error :=
  match store.blobs s uid with
  | Err e => inr (StageLoad, e)
  | Ok cp =>
      match checkpoint.Parse cp with
      | Err e => inr (StageParse, e)
      | Ok c =>
          match ValidateKubeletConfiguration c with
          | Some e => inr (StageValidate, e)
          | None => inl c
          end
      end
  end.

(** The local configuration of a controller: the valid defaults, or with a
    loader the valid content of the file, the defaults being valid too. *)
Inductive LocalConfig (c : Controller) : KubeletConfiguration -> Prop :=
| LocalDefaults :
    ValidateKubeletConfiguration (defaultConfig c) = None ->
    fileLoader c = None ->
    LocalConfig c (defaultConfig c)
| LocalFile l kc :
    ValidateKubeletConfiguration (defaultConfig c) = None ->
    fileLoader c = Some l ->
    configfiles.Load l = Ok kc ->
    ValidateKubeletConfiguration kc = None ->
    LocalConfig c kc.

(** The local configuration fails validation: the defaults do, or the
    loaded file does. *)
Inductive LocalInvalid (c : Controller) : Prop :=
| InvalidDefaults e :
    ValidateKubeletConfiguration (defaultConfig c) = Some e ->
    LocalInvalid c
| InvalidFile l kc e :
    fileLoader c = Some l ->
    configfiles.Load l = Ok kc ->
    ValidateKubeletConfiguration kc = Some e ->
    LocalInvalid c.

(** A pointer resolves to a configuration: absent, it stands for the local
    configuration; present, its checkpoint loads, parses and validates. *)
Inductive Resolves (s : store.Store) (local : KubeletConfiguration)
  : option checkpoint.RemoteConfigSource -> KubeletConfiguration -> Prop :=
| ResolvesLocal : Resolves s local None local
| ResolvesRemote src c :
    checkpointState s (checkpoint.UID src) = inl c ->
    Resolves s local (Some src) c.

(** A pointer fails to resolve: it cannot be read, or its checkpoint fails
    at some stage. *)
Inductive FailsToResolve (s : store.Store)
  : Result (option checkpoint.RemoteConfigSource) -> Prop :=
| FailsUnreadable e : FailsToResolve s (Err e)
| FailsCheckpoint src st e :
    checkpointState s (checkpoint.UID src) = inr (st, e) ->
    FailsToResolve s (Ok (Some src)).

End Vocabulary.

(** The message [Bootstrap] publishes for a source it runs on the strength
    of the last-known-good pointer. *)
Definition lkgMessage {msgs : status.Messages}
           (src : option checkpoint.RemoteConfigSource) : string :=
  match src with
  | Some s => status.LkgRemoteMessageFmt (checkpoint.UID s)
  | None => status.LkgLocalMessage
  end.

(** ** States along a run *)

(** The state after further calls on the store that changed nothing else. *)
Definition noted (calls : list store.Call) (w : World) : World :=
  {| cc := cc w; trace := (trace w ++ calls)%list |}.

(** The state after [cc.configOK.Set]. *)
Definition published (k : status.Condition) (w : World) : World :=
  {| cc := withConfigOK (Some k) (cc w); trace := trace w |}.

(** The state after a successful [SetLastKnownGood]. *)
Definition graduated (source : option checkpoint.RemoteConfigSource)
           (w : World) : World :=
  {| cc := withStore (snd (store.SetLastKnownGood source (checkpointStore (cc w))))
                     (cc w);
     trace := trace w |}.

(** The calls that resolving a pointer makes after reading it. *)
Definition loadCalls (p : option checkpoint.RemoteConfigSource)
  : list store.Call :=
  match p with
  | Some src => [store.CallLoad (checkpoint.UID src)]
  | None => []
  end.

(** What [Bootstrap] publishes for the assigned configuration. *)
Definition assignedCondition {msgs : status.Messages}
           (p : option checkpoint.RemoteConfigSource) : status.Condition :=
  match p with
  | Some src =>
      {| status.message := status.CurRemoteMessageFmt (checkpoint.UID src);
         status.reason := status.CurRemoteOkayReason;
         status.condStatus := apiv1.ConditionTrue |}
  | None =>
      {| status.message := status.CurLocalMessage;
         status.reason := status.CurLocalOkayReason;
         status.condStatus := apiv1.ConditionTrue |}
  end.

(** Whether the trial of the assigned configuration [a] is over at [now]:
    the modification time of [current] can be read and lies more than the
    trial duration of [a] back. *)
Definition trialOver (now : time.Time) (s : store.Store)
           (a : KubeletConfiguration) : bool :=
  match store.currentModifiedAt s with
  | Ok t => negb (time.Sub now t <=? ConfigTrialDuration a)
  | Err _ => false
  end.

(** The state in which [Bootstrap] checks the trial period. *)
Definition assignedWorld {msgs : status.Messages}
           (p : option checkpoint.RemoteConfigSource) (w : World) : World :=
  noted [store.CallCurrentModified]
    (published (assignedCondition p)
       (noted (store.CallCurrent :: loadCalls p)
          (noted [store.CallInitialize] w))).

(** ** Instances to run the model on *)

Module Examples.
Import checkpoint.

(** A validator that rejects exactly the configurations whose settings
    read "invalid". *)
Definition validator : Validator :=
  fun kc => if String.eqb (settings kc) "invalid"
            then Some "invalid settings" else None.

Definition msgs : status.Messages :=
  {| status.NotDynamicLocalMessage := "using local, dynamic disabled";
     status.NotDynamicLocalReason := "dynamic-disabled";
     status.CurLocalMessage := "using current: local";
     status.LkgLocalMessage := "using last-known-good: local";
     status.CurRemoteMessageFmt := fun uid => "using current: " ++ uid;
     status.LkgRemoteMessageFmt := fun uid => "using last-known-good: " ++ uid;
     status.CurRemoteOkayReason := "remote-ok";
     status.LkgFailLoadReasonFmt := fun uid => "lkg-load-failed:" ++ uid;
     status.LkgFailParseReasonFmt := fun uid => "lkg-parse-failed:" ++ uid;
     status.LkgFailValidateReasonFmt :=
       fun uid => "lkg-validate-failed:" ++ uid |}.

Definition minute : time.Duration := 60 * 1000000000.

Definition localCfg : KubeletConfiguration :=
  {| ConfigTrialDuration := 10 * minute; settings := "local" |}.
Definition invalidCfg : KubeletConfiguration :=
  {| ConfigTrialDuration := 10 * minute; settings := "invalid" |}.
Definition v1Cfg : KubeletConfiguration :=
  {| ConfigTrialDuration := 10 * minute; settings := "v1" |}.
Definition v2Cfg : KubeletConfiguration :=
  {| ConfigTrialDuration := 10 * minute; settings := "v2" |}.

Definition v1 : RemoteConfigSource := {| UID := "v1" |}.
Definition v2 : RemoteConfigSource := {| UID := "v2" |}.
Definition bad : RemoteConfigSource := {| UID := "bad" |}.
Definition garbled : RemoteConfigSource := {| UID := "garbled" |}.

(** One blob per UID: v1 and v2 are sound, bad fails validation, garbled
    does not parse, and nothing else can be loaded. *)
Definition disk (uid : string) : Result Checkpoint :=
  if String.eqb uid "v1" then Ok {| Parse := Ok v1Cfg |}
  else if String.eqb uid "v2" then Ok {| Parse := Ok v2Cfg |}
  else if String.eqb uid "bad" then Ok {| Parse := Ok invalidCfg |}
  else if String.eqb uid "garbled" then Ok {| Parse := Err "unexpected end of input" |}
  else Err "no such checkpoint".

Definition mkStore (cur lkg : Result (option RemoteConfigSource))
           (modified : Result time.Time) (werr : option error)
  : store.Store :=
  {| store.initializeErr := None;
     store.blobs := disk;
     store.currentPtr := cur;
     store.currentModifiedAt := modified;
     store.lastKnownGoodPtr := lkg;
     store.writeErr := werr |}.

Definition mkController (dyn : bool) (dflt : KubeletConfiguration)
           (s : store.Store) : Controller :=
  {| dynamicConfig := dyn;
     defaultConfig := dflt;
     fileLoader := None;
     pendingConfigSource := make_chan 1;
     configOK := status.NewConfigOKCondition;
     checkpointStore := s |}.

Definition start (c : Controller) : World := {| cc := c; trace := [] |}.

(** The time of the run: one hour after [current] was last modified. *)
Definition modified : time.Time := 1000 * minute.
Definition now : time.Time := modified + 60 * minute.

(** [current] fails validation, [last-known-good] is sound. *)
Definition rollbackWorld : World :=
  start (mkController true localCfg
           (mkStore (Ok (Some bad)) (Ok (Some v1)) (Ok modified) None)).

(** [current] does not parse and [last-known-good] fails validation. *)
Definition noFallbackWorld : World :=
  start (mkController true localCfg
           (mkStore (Ok (Some garbled)) (Ok (Some bad)) (Ok modified) None)).

(** The defaults are invalid. *)
Definition invalidLocalWorld : World :=
  start (mkController true invalidCfg
           (mkStore (Ok (Some v2)) (Ok (Some v1)) (Ok modified) None)).

(** [current] is v2, sound, and the store takes writes. *)
Definition graduatingWorld : World :=
  start (mkController true localCfg
           (mkStore (Ok (Some v2)) (Ok (Some v1)) (Ok modified) None)).

(** The same, on a store that refuses writes. *)
Definition writeFailureWorld : World :=
  start (mkController true localCfg
           (mkStore (Ok (Some v2)) (Ok (Some v1)) (Ok modified)
              (Some "no space left on device"))).

(** [current] is absent and [last-known-good] is v1. *)
Definition localWorld : World :=
  start (mkController true localCfg
           (mkStore (Ok None) (Ok (Some v1)) (Ok modified) None)).

(** The same, on a store that refuses writes. *)
Definition localWriteFailureWorld : World :=
  start (mkController true localCfg
           (mkStore (Ok None) (Ok (Some v1)) (Ok modified)
              (Some "no space left on device"))).

(** The [current] pointer cannot be read. *)
Definition unreadableWorld : World :=
  start (mkController true localCfg
           (mkStore (Err "input/output error") (Ok (Some v1))
              (Ok modified) None)).

(** [current] names a UID that reads "unknown" and has no checkpoint. *)
Definition unknownUidWorld : World :=
  start (mkController true localCfg
           (mkStore (Ok (Some {| UID := "unknown" |})) (Ok (Some v1))
              (Ok modified) None)).

(** Dynamic configuration is disabled. *)
Definition staticWorld : World :=
  start (mkController false localCfg
           (mkStore (Ok (Some v2)) (Ok (Some v1)) (Ok modified) None)).

(** The store of [rollbackWorld] in a controller with a condition
    published and calls made already. *)
Definition laterWorld : World :=
  {| cc := withConfigOK
             (Some {| status.message := "using current: local";
                      status.reason := "local-ok";
                      status.condStatus := apiv1.ConditionTrue |})
             (cc rollbackWorld);
     trace := [store.CallInitialize; store.CallCurrent] |}.

End Examples.

(** ** Starting the sync loops *)

(** [StartSync] launches goroutines; a launch is known by the loop it
    starts. *)
Inductive Loop : Type :=
| ConfigOKSyncLoop
| NodeInformerLoop
| ConfigSourceSyncLoop.

(** What [StartSync] leaves behind: the loops launched, in order, and
    whether [cc.informer] was set. *)
Record SyncState : Type := {
  launched : list Loop;
  informerSet : bool
}.

(** [StartSync], up to the launches: [client] is nil or not, and the loops
    themselves run on after it returns. *)
Definition StartSync (clientIsNil : bool) (nodeName : string)
           (c : Controller) : SyncState :=
  if clientIsNil then {| launched := []; informerSet := false |}
  else if (String.length nodeName =? 0)%nat
       then {| launched := []; informerSet := false |}
       else if dynamicConfig c
            then {| launched := [ConfigOKSyncLoop; NodeInformerLoop;
                                 ConfigSourceSyncLoop];
                    informerSet := true |}
            else {| launched := [ConfigOKSyncLoop]; informerSet := false |}.

(** ** The runs of Bootstrap *)

(** What [Bootstrap] publishes when dynamic configuration is disabled. *)
Definition notDynamicCondition {msgs : status.Messages} : status.Condition :=
  {| status.message := status.NotDynamicLocalMessage;
     status.reason := status.NotDynamicLocalReason;
     status.condStatus := apiv1.ConditionTrue |}.

(** What [Bootstrap] publishes when it rolls back to the source [p] for the
    reason [r]. *)
Definition rollbackCondition {msgs : status.Messages}
           (p : option checkpoint.RemoteConfigSource) (r : string)
  : status.Condition :=
  {| status.message := lkgMessage p;
     status.reason := r;
     status.condStatus := apiv1.ConditionFalse |}.

(** The reason in the error of a last-known-good checkpoint, by stage. *)
Definition lkgFailReason {msgs : status.Messages} (st : Stage) (uid : string)
  : string :=
  match st with
  | StageLoad => status.LkgFailLoadReasonFmt uid
  | StageParse => status.LkgFailParseReasonFmt uid
  | StageValidate => status.LkgFailValidateReasonFmt uid
  end.

Section Runs_of_Bootstrap.
Import checkpoint.
Context {msgs : status.Messages} {validator : Validator}.

(** The local configuration cannot be had, with the error that
    [loadLocalConfig] gives for it. *)
Inductive LocalFails (c : Controller) : error -> Prop :=
| FailsDefaults e :
    ValidateKubeletConfiguration (defaultConfig c) = Some e ->
    LocalFails c ("combination of defaults and flags failed validation, error: "
                    ++ e)
| FailsFileLoad l e :
    ValidateKubeletConfiguration (defaultConfig c) = None ->
    fileLoader c = Some l ->
    configfiles.Load l = Err e ->
    LocalFails c e
| FailsFileValidation l kc e :
    ValidateKubeletConfiguration (defaultConfig c) = None ->
    fileLoader c = Some l ->
    configfiles.Load l = Ok kc ->
    ValidateKubeletConfiguration kc = Some e ->
    LocalFails c ("failed to validate the Kubelet config file, error: " ++ e).

(** The assigned configuration fails to resolve, with the source, the
    reason and the error that [loadAssignedConfig] gives for it. *)
Inductive AssignedFails (s : store.Store)
  : option RemoteConfigSource -> string -> error -> Prop :=
| AssignedUnreadable e :
    store.currentPtr s = Err e ->
    AssignedFails s None (status.CurFailLoadReasonFmt "unknown") e
| AssignedCheckpoint src st e :
    store.currentPtr s = Ok (Some src) ->
    checkpointState s (UID src) = inr (st, e) ->
    AssignedFails s (Some src) (failReason st (UID src)) e.

(** The last-known-good configuration fails to resolve, with the source and
    the error that [loadLastKnownGoodConfig] gives for it. *)
Inductive LkgFails (s : store.Store)
  : option RemoteConfigSource -> error -> Prop :=
| LkgUnreadable e :
    store.lastKnownGoodPtr s = Err e ->
    LkgFails s None
             ("unable to determine last-known-good config, error: " ++ e)
| LkgCheckpoint src st e :
    store.lastKnownGoodPtr s = Ok (Some src) ->
    checkpointState s (UID src) = inr (st, e) ->
    LkgFails s (Some src) (reasonError (lkgFailReason st (UID src)) e).

(** The state in which [Bootstrap] turns to the last-known-good pointer,
    the assigned source being [src]. *)
Definition fallbackWorld (src : option RemoteConfigSource) (w : World)
  : World :=
  noted (store.CallCurrent :: loadCalls src)
        (noted [store.CallInitialize] w).

(** The six ways through [Bootstrap], each with what it returns and the
    state it ends in. *)
Inductive BootstrapRun (now : time.Time) (w : World)
  : option KubeletConfiguration * option error -> World -> Prop :=
| RunLocalFailure e :
    LocalFails (cc w) e ->
    BootstrapRun now w (None, Some e) w
| RunStatic local :
    LocalConfig (cc w) local ->
    dynamicConfig (cc w) = false ->
    BootstrapRun now w (Some local, None) (published notDynamicCondition w)
| RunInitializeFailure local e :
    LocalConfig (cc w) local ->
    dynamicConfig (cc w) = true ->
    store.initializeErr (checkpointStore (cc w)) = Some e ->
    BootstrapRun now w (None, Some e) (noted [store.CallInitialize] w)
| RunAssigned local p a :
    LocalConfig (cc w) local ->
    dynamicConfig (cc w) = true ->
    store.initializeErr (checkpointStore (cc w)) = None ->
    store.currentPtr (checkpointStore (cc w)) = Ok p ->
    Resolves (checkpointStore (cc w)) local p a ->
    BootstrapRun now w (Some a, None)
      (if trialOver now (checkpointStore (cc w)) a
       then noted [store.CallCurrent; store.CallSetLastKnownGood p]
                  (graduated p (assignedWorld p w))
       else assignedWorld p w)
| RunRollback local src r e p c :
    LocalConfig (cc w) local ->
    dynamicConfig (cc w) = true ->
    store.initializeErr (checkpointStore (cc w)) = None ->
    AssignedFails (checkpointStore (cc w)) src r e ->
    store.lastKnownGoodPtr (checkpointStore (cc w)) = Ok p ->
    Resolves (checkpointStore (cc w)) local p c ->
    BootstrapRun now w (Some c, None)
      (published (rollbackCondition p r)
         (noted (store.CallLastKnownGood :: loadCalls p)
            (fallbackWorld src w)))
| RunNoFallback local src r e lsrc le :
    LocalConfig (cc w) local ->
    dynamicConfig (cc w) = true ->
    store.initializeErr (checkpointStore (cc w)) = None ->
    AssignedFails (checkpointStore (cc w)) src r e ->
    LkgFails (checkpointStore (cc w)) lsrc le ->
    BootstrapRun now w (None, Some le)
      (noted (store.CallLastKnownGood :: loadCalls lsrc)
         (fallbackWorld src w)).

End Runs_of_Bootstrap.

(** ** More instances to run the model on *)

Module Scenarios.
Import checkpoint Examples.

(** The state a method call ends in; the state it started in if it
    panicked. *)
Definition finalWorld {A : Type} (run : option (A * World)) (w : World)
  : World :=
  match run with
  | Some (_, w') => w'
  | None => w
  end.

(** A store that cannot be initialised. *)
Definition initFailureWorld : World :=
  start (mkController true localCfg
           {| store.initializeErr := Some "permission denied";
              store.blobs := disk;
              store.currentPtr := Ok (Some v2);
              store.currentModifiedAt := Ok modified;
              store.lastKnownGoodPtr := Ok (Some v1);
              store.writeErr := None |}).

(** A controller with a loader for a config file. *)
Definition withLoader (l : configfiles.Loader) (w : World) : World :=
  {| cc := {| dynamicConfig := dynamicConfig (cc w);
              defaultConfig := defaultConfig (cc w);
              fileLoader := Some l;
              pendingConfigSource := pendingConfigSource (cc w);
              configOK := configOK (cc w);
              checkpointStore := checkpointStore (cc w) |};
     trace := trace w |}.

(** The config file cannot be loaded. *)
Definition loaderFailureWorld : World :=
  withLoader {| configfiles.Load := Err "no such file" |} graduatingWorld.

(** The config file holds the configuration v1. *)
Definition fileWorld : World :=
  withLoader {| configfiles.Load := Ok v1Cfg |} staticWorld.

(** [current] is v2, sound, and its modification time cannot be read. *)
Definition unreadableTimestampWorld : World :=
  start (mkController true localCfg
           (mkStore (Ok (Some v2)) (Ok (Some v1))
              (Err "stat failed") None)).

(** Both pointers name v1. *)
Definition settledWorld : World :=
  start (mkController true localCfg
           (mkStore (Ok (Some v1)) (Ok (Some v1)) (Ok modified) None)).

(** Constructors for [NewController] to use. *)
Definition newLoader (path : string) : Result configfiles.Loader :=
  if String.eqb path "/etc/kubelet.conf"
  then Ok {| configfiles.Load := Ok v1Cfg |}
  else Err "no such file".

Definition newStore (path : string) : store.Store :=
  mkStore (Ok None) (Ok None) (Ok modified) None.

Definition join (dir name : string) : string := dir ++ "/" ++ name.

(** The controller [NewController] makes without a config file and
    without a dynamic-configuration directory. *)
Definition plainController : Controller :=
  {| dynamicConfig := false;
     defaultConfig := localCfg;
     fileLoader := None;
     pendingConfigSource := make_chan 1;
     configOK := status.NewConfigOKCondition;
     checkpointStore := newStore (join "" checkpointsDir) |}.

End Scenarios.

(** * Verification *)

(** ** Time *)

Lemma time_Sub_exact (t u : time.Time) :
  time.minDuration <= t - u <= time.maxDuration -> time.Sub t u = t - u.
Proof.
  intros [Hlo Hhi]. unfold time.Sub.
  destruct (Z.ltb_spec (t - u) time.minDuration); [lia|].
  destruct (Z.ltb_spec time.maxDuration (t - u)); [lia|reflexivity].
Qed.

Lemma time_Sub_range (t u : time.Time) :
  time.minDuration <= time.Sub t u <= time.maxDuration.
Proof.
  unfold time.Sub.
  destruct (Z.ltb_spec (t - u) time.minDuration);
    [unfold time.minDuration, time.maxDuration; lia|].
  destruct (Z.ltb_spec time.maxDuration (t - u));
    [unfold time.minDuration, time.maxDuration in *; lia|lia].
Qed.

(** Against a trial duration below the largest [Duration], the elapsed time
    that [Sub] gives compares as the exact difference does. *)
Lemma time_Sub_leb (t u : time.Time) (d : time.Duration) :
  time.minDuration <= d < time.maxDuration ->
  (time.Sub t u <=? d) = (t - u <=? d).
Proof.
  intros [Hlo Hhi]. unfold time.Sub.
  destruct (Z.ltb_spec (t - u) time.minDuration) as [Hl|Hl].
  - destruct (Z.leb_spec time.minDuration d), (Z.leb_spec (t - u) d);
      reflexivity || lia.
  - destruct (Z.ltb_spec time.maxDuration (t - u)) as [Hm|Hm];
      [|reflexivity].
    destruct (Z.leb_spec time.maxDuration d), (Z.leb_spec (t - u) d);
      reflexivity || lia.
Qed.

(** ** Stepping the methods *)

(** Take the state apart down to the fields of the store, and use the
    equations at hand on them. *)
Ltac open_world w :=
  let c := fresh "c" in
  let tr := fresh "tr" in
  let s := fresh "s" in
  destruct w as [c tr]; destruct c as [? ? ? ? ? s]; destruct s;
  simpl in *; subst.

(** Read a hypothesis on [checkpointState] as facts on the blob. *)
Ltac open_checkpoint H :=
  unfold checkpointState in H; simpl in H;
  repeat match type of H with
         | context [match ?x with _ => _ end] =>
             let E := fresh "E" in destruct x eqn:E
         end;
  inversion H; subst; clear H.

Section Steps.
Import checkpoint.
Context {msgs : status.Messages} {validator : Validator}.

Lemma loadLocalConfig_valid (w : World) (local : KubeletConfiguration) :
  LocalConfig (cc w) local ->
  loadLocalConfig w = Some ((Some local, None), w).
Proof.
  intros H. unfold loadLocalConfig, bind, gets, ret.
  destruct H as [Hd Hl | l kc Hd Hl Hk Hv].
  - now rewrite Hd, Hl.
  - now rewrite Hd, Hl, Hk, Hv.
Qed.

Lemma loadLocalConfig_invalid (w : World) :
  LocalInvalid (cc w) ->
  exists e, loadLocalConfig w = Some ((None, Some e), w).
Proof.
  intros H. unfold loadLocalConfig, bind, gets, ret.
  destruct H as [e Hd | l kc e Hl Hk Hv].
  - rewrite Hd. eauto.
  - destruct (ValidateKubeletConfiguration (defaultConfig (cc w))); [eauto|].
    rewrite Hl, Hk, Hv. eauto.
Qed.

(** [loadLocalConfig] returns, touches nothing, and yields a configuration
    exactly when it yields no error. *)
Lemma loadLocalConfig_returns (w : World) :
  (exists e, loadLocalConfig w = Some ((None, Some e), w)) \/
  (exists local, loadLocalConfig w = Some ((Some local, None), w)).
Proof.
  unfold loadLocalConfig, bind, gets, ret.
  destruct (ValidateKubeletConfiguration (defaultConfig (cc w))); [eauto|].
  destruct (fileLoader (cc w)) as [l|]; [|eauto].
  destruct (configfiles.Load l) as [kc|e]; [|eauto].
  destruct (ValidateKubeletConfiguration kc); eauto.
Qed.

Lemma loadAssignedConfig_unreadable (w : World) local e :
  store.currentPtr (checkpointStore (cc w)) = Err e ->
  loadAssignedConfig local w =
    Some ((None, None, status.CurFailLoadReasonFmt "unknown", Some e),
          noted [store.CallCurrent] w).
Proof. intros H. open_world w. reflexivity. Qed.

Lemma loadAssignedConfig_absent (w : World) local :
  store.currentPtr (checkpointStore (cc w)) = Ok None ->
  loadAssignedConfig local w =
    Some ((local, None, status.CurLocalOkayReason, None),
          noted [store.CallCurrent] w).
Proof. intros H. open_world w. reflexivity. Qed.

Lemma loadAssignedConfig_sound (w : World) local src c :
  store.currentPtr (checkpointStore (cc w)) = Ok (Some src) ->
  checkpointState (checkpointStore (cc w)) (UID src) = inl c ->
  loadAssignedConfig local w =
    Some ((Some c, Some src, status.CurRemoteOkayReason, None),
          noted [store.CallCurrent; store.CallLoad (UID src)] w).
Proof.
  intros H Hc. open_world w. open_checkpoint Hc.
  unfold loadAssignedConfig, bind, onStore, ret, noted; simpl.
  rewrite E; simpl. rewrite E0, E1. now rewrite <- app_assoc.
Qed.

Lemma loadAssignedConfig_failing (w : World) local src st e :
  store.currentPtr (checkpointStore (cc w)) = Ok (Some src) ->
  checkpointState (checkpointStore (cc w)) (UID src) = inr (st, e) ->
  loadAssignedConfig local w =
    Some ((None, Some src, failReason st (UID src), Some e),
          noted [store.CallCurrent; store.CallLoad (UID src)] w).
Proof.
  intros H Hc. open_world w. open_checkpoint Hc;
    unfold loadAssignedConfig, bind, onStore, ret, noted; simpl;
    rewrite E; simpl; rewrite <- ?app_assoc; try reflexivity.
  - rewrite E0, E1. reflexivity.
  - rewrite E0. reflexivity.
Qed.

End Steps.

Section StoreSteps.
Import checkpoint.
Context {msgs : status.Messages} {validator : Validator}.

Lemma loadLastKnownGoodConfig_resolves (w : World) local p c :
  store.lastKnownGoodPtr (checkpointStore (cc w)) = Ok p ->
  Resolves (checkpointStore (cc w)) local p c ->
  loadLastKnownGoodConfig (Some local) w =
    Some ((Some c, p, None),
          noted (store.CallLastKnownGood :: loadCalls p) w).
Proof.
  intros H Hr. destruct Hr as [|src c Hc].
  - open_world w. reflexivity.
  - open_world w. open_checkpoint Hc.
    unfold loadLastKnownGoodConfig, bind, onStore, ret, noted; simpl.
    rewrite E; simpl. rewrite E0, E1. now rewrite <- app_assoc.
Qed.

Lemma loadLastKnownGoodConfig_fails (w : World) local :
  FailsToResolve (checkpointStore (cc w))
                 (store.lastKnownGoodPtr (checkpointStore (cc w))) ->
  exists src e calls,
    loadLastKnownGoodConfig local w =
      Some ((None, src, Some e), noted calls w).
Proof.
  intros H. inversion H as [e He | src st e Hc He].
  - symmetry in He. open_world w.
    exists None. eexists. exists [store.CallLastKnownGood]. reflexivity.
  - symmetry in He. open_world w. exists (Some src).
    open_checkpoint Hc; eexists;
      exists [store.CallLastKnownGood; store.CallLoad (UID src)];
      unfold loadLastKnownGoodConfig, bind, onStore, ret, noted; simpl;
      rewrite E; simpl; rewrite <- ?app_assoc; try reflexivity.
    + rewrite E0, E1. reflexivity.
    + rewrite E0. reflexivity.
Qed.

Lemma loadAssignedConfig_fails (w : World) local :
  FailsToResolve (checkpointStore (cc w))
                 (store.currentPtr (checkpointStore (cc w))) ->
  exists src r e calls,
    loadAssignedConfig local w =
      Some ((None, src, r, Some e), noted calls w).
Proof.
  intros H. inversion H as [e He | src st e Hc He]; symmetry in He.
  - rewrite (loadAssignedConfig_unreadable w local e He). eauto 6.
  - rewrite (loadAssignedConfig_failing w local src st e He Hc). eauto 6.
Qed.

Lemma initializeDynamicConfigDir_step (w : World) :
  initializeDynamicConfigDir w =
    Some (store.initializeErr (checkpointStore (cc w)),
          noted [store.CallInitialize] w).
Proof. open_world w. reflexivity. Qed.

Lemma inTrial_step (w : World) (now t : time.Time) (d : time.Duration) :
  store.currentModifiedAt (checkpointStore (cc w)) = Ok t ->
  inTrial now d w =
    Some ((time.Sub now t <=? d, None), noted [store.CallCurrentModified] w).
Proof.
  intros H. open_world w.
  unfold inTrial, bind, onStore, ret, noted; simpl.
  destruct (time.Sub now t <=? d); reflexivity.
Qed.

Lemma inTrial_unreadable (w : World) (now : time.Time) (d : time.Duration) e :
  store.currentModifiedAt (checkpointStore (cc w)) = Err e ->
  inTrial now d w =
    Some ((false, Some e), noted [store.CallCurrentModified] w).
Proof. intros H. open_world w. reflexivity. Qed.

Lemma graduate_step (w : World) p :
  store.currentPtr (checkpointStore (cc w)) = Ok p ->
  graduateAssignedToLastKnownGood w =
    Some (store.writeErr (checkpointStore (cc w)),
          noted [store.CallCurrent; store.CallSetLastKnownGood p]
                (graduated p w)).
Proof.
  intros H. open_world w.
  unfold graduateAssignedToLastKnownGood, bind, onStore, ret, noted, graduated;
    simpl.
  unfold store.SetLastKnownGood; simpl.
  destruct writeErr; simpl; now rewrite <- app_assoc.
Qed.

Lemma graduated_failed (w : World) p e :
  store.writeErr (checkpointStore (cc w)) = Some e ->
  graduated p w = w.
Proof.
  intros H. open_world w. unfold graduated, store.SetLastKnownGood; simpl.
  reflexivity.
Qed.

Lemma graduated_pointer (w : World) p :
  store.writeErr (checkpointStore (cc w)) = None ->
  store.lastKnownGoodPtr (checkpointStore (cc (graduated p w))) = Ok p.
Proof.
  intros H. open_world w. unfold graduated, store.SetLastKnownGood; simpl.
  reflexivity.
Qed.

End StoreSteps.

Section Assigned.
Import checkpoint.
Context {msgs : status.Messages} {validator : Validator}.

Lemma loadAssignedConfig_resolves (w : World) local p c :
  store.currentPtr (checkpointStore (cc w)) = Ok p ->
  Resolves (checkpointStore (cc w)) local p c ->
  loadAssignedConfig (Some local) w =
    Some ((Some c, p, status.reason (assignedCondition p), None),
          noted (store.CallCurrent :: loadCalls p) w).
Proof.
  intros H Hr. destruct Hr as [|src c Hc].
  - now apply loadAssignedConfig_absent.
  - now apply loadAssignedConfig_sound.
Qed.

(** The success path of [Bootstrap], whole. *)
Lemma Bootstrap_assigned (w : World) (now : time.Time) local p a :
  dynamicConfig (cc w) = true ->
  LocalConfig (cc w) local ->
  store.initializeErr (checkpointStore (cc w)) = None ->
  store.currentPtr (checkpointStore (cc w)) = Ok p ->
  Resolves (checkpointStore (cc w)) local p a ->
  Bootstrap now w =
    Some ((Some a, None),
          if trialOver now (checkpointStore (cc w)) a
          then noted [store.CallCurrent; store.CallSetLastKnownGood p]
                     (graduated p (assignedWorld p w))
          else assignedWorld p w).
Proof.
  intros Hdyn Hloc Hinit Hcur Hres.
  unfold Bootstrap, bind.
  rewrite (loadLocalConfig_valid w local Hloc).
  unfold gets. rewrite Hdyn. cbn [negb].
  rewrite initializeDynamicConfigDir_step, Hinit.
  rewrite (loadAssignedConfig_resolves _ local p a) by assumption.
  unfold trialOver, assignedWorld.
  assert (Hset : forall (x : World),
             (match p with
              | Some src =>
                  configOK_Set (status.CurRemoteMessageFmt (UID src))
                    (status.reason (assignedCondition p)) apiv1.ConditionTrue
              | None =>
                  configOK_Set status.CurLocalMessage
                    (status.reason (assignedCondition p)) apiv1.ConditionTrue
              end) x = Some (tt, published (assignedCondition p) x)).
  { intros x. destruct p; reflexivity. }
  rewrite Hset. clear Hset.
  set (w1 := published _ _).
  destruct (store.currentModifiedAt (checkpointStore (cc w))) as [t|e] eqn:Ht.
  - rewrite (inTrial_step w1 now t _) by exact Ht.
    destruct (time.Sub now t <=? ConfigTrialDuration a); cbn [negb].
    + reflexivity.
    + rewrite (graduate_step _ p) by exact Hcur. reflexivity.
  - rewrite (inTrial_unreadable w1 now _ e) by exact Ht. reflexivity.
Qed.

End Assigned.

(** ** Bootstrap *)

Section BootstrapTheorems.
Import checkpoint.
Context {msgs : status.Messages} {validator : Validator}.

(** C1.  With dynamic configuration enabled, a valid local configuration
    and an initialised store: when [current] names a checkpoint that fails
    to load, parse or validate while [last-known-good] resolves,
    [Bootstrap] returns the last-known-good configuration and no error,
    and the condition it publishes is false and carries the failure reason
    of the assigned configuration, tagged with the UID of [current]; the
    store is left as it was. *)
Theorem Bootstrap_rolls_back_to_last_known_good
        (w : World) (now : time.Time) (local lkg : KubeletConfiguration)
        (src : RemoteConfigSource) (lkgSrc : option RemoteConfigSource)
        (st : Stage) (e : error) :
  dynamicConfig (cc w) = true ->
  LocalConfig (cc w) local ->
  store.initializeErr (checkpointStore (cc w)) = None ->
  store.currentPtr (checkpointStore (cc w)) = Ok (Some src) ->
  checkpointState (checkpointStore (cc w)) (UID src) = inr (st, e) ->
  store.lastKnownGoodPtr (checkpointStore (cc w)) = Ok lkgSrc ->
  Resolves (checkpointStore (cc w)) local lkgSrc lkg ->
  exists w',
    Bootstrap now w = Some ((Some lkg, None), w') /\
    configOK (cc w') =
      Some {| status.message := lkgMessage lkgSrc;
              status.reason := failReason st (UID src);
              status.condStatus := apiv1.ConditionFalse |} /\
    checkpointStore (cc w') = checkpointStore (cc w).
Proof.
  intros Hdyn Hloc Hinit Hcur Hbad Hlkg Hres.
  unfold Bootstrap, bind.
  rewrite (loadLocalConfig_valid w local Hloc).
  unfold gets. rewrite Hdyn. cbn [negb].
  rewrite initializeDynamicConfigDir_step, Hinit.
  rewrite (loadAssignedConfig_failing _ (Some local) src st e) by assumption.
  rewrite (loadLastKnownGoodConfig_resolves _ local lkgSrc lkg) by assumption.
  destruct lkgSrc as [l|]; eexists; (split; [reflexivity|]);
    split; reflexivity || (simpl; apply f_equal; now destruct w as [[] ?]).
Qed.

(** C2.  With dynamic configuration enabled: when the assigned
    configuration fails to resolve and the last-known-good one fails too,
    its pointer being unreadable or its checkpoint failing to load, parse
    or validate, [Bootstrap] returns an error and no configuration, and
    publishes nothing. *)
Theorem Bootstrap_fails_without_last_known_good
        (w : World) (now : time.Time) :
  dynamicConfig (cc w) = true ->
  FailsToResolve (checkpointStore (cc w))
                 (store.currentPtr (checkpointStore (cc w))) ->
  FailsToResolve (checkpointStore (cc w))
                 (store.lastKnownGoodPtr (checkpointStore (cc w))) ->
  exists e w',
    Bootstrap now w = Some ((None, Some e), w') /\
    cc w' = cc w.
Proof.
  intros Hdyn Hcur Hlkg.
  unfold Bootstrap, bind.
  destruct (loadLocalConfig_returns w) as [[e He] | [local Hl]].
  - rewrite He. eexists; eexists; split; reflexivity.
  - rewrite Hl. unfold gets. rewrite Hdyn. cbn [negb].
    rewrite initializeDynamicConfigDir_step.
    destruct (store.initializeErr (checkpointStore (cc w))) as [e|].
    + eexists; eexists; split; reflexivity.
    + destruct (loadAssignedConfig_fails
                  (noted [store.CallInitialize] w) (Some local) Hcur)
        as (src & r & e & calls & Ha).
      rewrite Ha.
      destruct (loadLastKnownGoodConfig_fails
                  (noted calls (noted [store.CallInitialize] w))
                  (Some local) Hlkg)
        as (src' & e' & calls' & Hb).
      rewrite Hb. eexists; eexists; split; reflexivity.
Qed.

(** C3.  When the local configuration fails validation, the defaults or
    the loaded config file, [Bootstrap] returns an error and no
    configuration and leaves the whole state as it found it: no call on
    the store is made and nothing is published. *)
Theorem Bootstrap_rejects_invalid_local (w : World) (now : time.Time) :
  LocalInvalid (cc w) ->
  exists e, Bootstrap now w = Some ((None, Some e), w).
Proof.
  intros H. destruct (loadLocalConfig_invalid w H) as [e He].
  exists e. unfold Bootstrap, bind. now rewrite He.
Qed.

(** C8.  With dynamic configuration disabled and a valid local
    configuration, [Bootstrap] returns the local configuration and no
    error, publishes the true condition of a local configuration without
    dynamic configuration, and makes no call on the store, which stays as
    it was. *)
Theorem Bootstrap_dynamic_disabled
        (w : World) (now : time.Time) (local : KubeletConfiguration) :
  dynamicConfig (cc w) = false ->
  LocalConfig (cc w) local ->
  exists w',
    Bootstrap now w = Some ((Some local, None), w') /\
    configOK (cc w') =
      Some {| status.message := status.NotDynamicLocalMessage;
              status.reason := status.NotDynamicLocalReason;
              status.condStatus := apiv1.ConditionTrue |} /\
    trace w' = trace w /\
    checkpointStore (cc w') = checkpointStore (cc w).
Proof.
  intros Hdyn Hloc.
  unfold Bootstrap, bind.
  rewrite (loadLocalConfig_valid w local Hloc).
  unfold gets. rewrite Hdyn. cbn [negb].
  eexists. split; [reflexivity|]. repeat split.
Qed.

(** C6.  For a valid local configuration and a store whose [current]
    pointer is absent, the resolver returns the local configuration, no
    source, the reason local-ok and no error; and [Bootstrap], with
    dynamic configuration enabled and the store initialised, returns the
    local configuration with a true condition carrying that reason. *)
Theorem absent_current_resolves_to_local
        (w : World) (now : time.Time) (local : KubeletConfiguration) :
  LocalConfig (cc w) local ->
  store.currentPtr (checkpointStore (cc w)) = Ok None ->
  (exists w',
      loadAssignedConfig (Some local) w =
        Some ((Some local, None, "local-ok", None), w') /\
      cc w' = cc w) /\
  (dynamicConfig (cc w) = true ->
   store.initializeErr (checkpointStore (cc w)) = None ->
   exists w',
     Bootstrap now w = Some ((Some local, None), w') /\
     configOK (cc w') =
       Some {| status.message := status.CurLocalMessage;
               status.reason := "local-ok";
               status.condStatus := apiv1.ConditionTrue |}).
Proof.
  intros Hloc Hcur. split.
  - rewrite (loadAssignedConfig_absent w (Some local) Hcur).
    eexists. split; reflexivity.
  - intros Hdyn Hinit.
    rewrite (Bootstrap_assigned w now local None local Hdyn Hloc Hinit Hcur
               (ResolvesLocal _ _)).
    eexists. split; [reflexivity|].
    destruct (trialOver now (checkpointStore (cc w)) local); reflexivity.
Qed.

End BootstrapTheorems.

Section Promotion.
Import checkpoint.
Context {msgs : status.Messages} {validator : Validator}.

(** Where the success path leaves the last-known-good pointer, and which
    calls it makes, when the modification time of [current] is [T]. *)
Lemma Bootstrap_assigned_pointer
      (w : World) (now T : time.Time) local p a :
  dynamicConfig (cc w) = true ->
  LocalConfig (cc w) local ->
  store.initializeErr (checkpointStore (cc w)) = None ->
  store.currentPtr (checkpointStore (cc w)) = Ok p ->
  Resolves (checkpointStore (cc w)) local p a ->
  store.currentModifiedAt (checkpointStore (cc w)) = Ok T ->
  exists w',
    Bootstrap now w = Some ((Some a, None), w') /\
    trace w' =
      (trace w ++ [store.CallInitialize] ++ (store.CallCurrent :: loadCalls p)
         ++ [store.CallCurrentModified]
         ++ (if time.Sub now T <=? ConfigTrialDuration a then []
             else [store.CallCurrent; store.CallSetLastKnownGood p]))%list /\
    store.lastKnownGoodPtr (checkpointStore (cc w')) =
      (if time.Sub now T <=? ConfigTrialDuration a
       then store.lastKnownGoodPtr (checkpointStore (cc w))
       else match store.writeErr (checkpointStore (cc w)) with
            | Some _ => store.lastKnownGoodPtr (checkpointStore (cc w))
            | None => Ok p
            end).
Proof.
  intros Hdyn Hloc Hinit Hcur Hres HT.
  rewrite (Bootstrap_assigned w now local p a Hdyn Hloc Hinit Hcur Hres).
  unfold trialOver. rewrite HT.
  destruct (time.Sub now T <=? ConfigTrialDuration a); cbn [negb].
  - eexists. split; [reflexivity|]. split.
    + unfold assignedWorld, noted; simpl.
      rewrite <- ?app_assoc, ?app_nil_r. reflexivity.
    + reflexivity.
  - eexists. split; [reflexivity|]. split.
    + unfold assignedWorld, noted, graduated; simpl.
      rewrite <- ?app_assoc. reflexivity.
    + destruct (store.writeErr (checkpointStore (cc w))) as [e|] eqn:Hw.
      * rewrite (graduated_failed _ p e) by exact Hw. reflexivity.
      * simpl. apply (graduated_pointer (assignedWorld p w) p). exact Hw.
Qed.

(** C4, as the code has it.  When the assigned configuration resolves
    from the checkpoint of [current], of UID [X], modified at [T], with
    trial duration [D] and elapsed time [now.Sub(T)]: [Bootstrap] returns
    the assigned configuration and no error in every case; if the elapsed
    time is at most [D] the last-known-good pointer is unchanged; if it
    exceeds [D] and the store accepts the write, the pointer is [X]; if it
    exceeds [D] and the write fails, the pointer is unchanged. *)
Theorem Bootstrap_trial_promotion
        (w : World) (now T : time.Time) (local a : KubeletConfiguration)
        (X : RemoteConfigSource) :
  dynamicConfig (cc w) = true ->
  LocalConfig (cc w) local ->
  store.initializeErr (checkpointStore (cc w)) = None ->
  store.currentPtr (checkpointStore (cc w)) = Ok (Some X) ->
  checkpointState (checkpointStore (cc w)) (UID X) = inl a ->
  store.currentModifiedAt (checkpointStore (cc w)) = Ok T ->
  exists w',
    Bootstrap now w = Some ((Some a, None), w') /\
    (time.Sub now T <= ConfigTrialDuration a ->
     store.lastKnownGoodPtr (checkpointStore (cc w')) =
       store.lastKnownGoodPtr (checkpointStore (cc w))) /\
    (time.Sub now T > ConfigTrialDuration a ->
     store.writeErr (checkpointStore (cc w)) = None ->
     store.lastKnownGoodPtr (checkpointStore (cc w')) = Ok (Some X)) /\
    (time.Sub now T > ConfigTrialDuration a ->
     store.writeErr (checkpointStore (cc w)) <> None ->
     store.lastKnownGoodPtr (checkpointStore (cc w')) =
       store.lastKnownGoodPtr (checkpointStore (cc w))).
Proof.
  intros Hdyn Hloc Hinit Hcur Hok HT.
  destruct (Bootstrap_assigned_pointer w now T local (Some X) a
              Hdyn Hloc Hinit Hcur (ResolvesRemote _ _ X a Hok) HT)
    as (w' & Hb & _ & Hp).
  exists w'. split; [exact Hb|].
  rewrite Hp.
  destruct (Z.leb_spec (time.Sub now T) (ConfigTrialDuration a)) as [Hle|Hgt].
  - repeat split; intros; (reflexivity || lia).
  - repeat split; intros; try lia.
    + match goal with H : store.writeErr _ = None |- _ => now rewrite H end.
    + destruct (store.writeErr (checkpointStore (cc w)));
        [reflexivity|congruence].
Qed.

(** C10, as the code has it.  When [current] is absent, so that the local
    configuration is the assigned one, and the time elapsed since
    [current] was modified exceeds the trial duration of the local
    configuration, [Bootstrap] runs graduation with the absent value: it
    reads [current] again and calls [SetLastKnownGood] with absent.  If
    the store accepts the write, the last-known-good pointer is absent
    afterwards, whatever it was; if the write fails, it is unchanged. *)
Theorem Bootstrap_graduates_absent_current
        (w : World) (now T : time.Time) (local : KubeletConfiguration) :
  dynamicConfig (cc w) = true ->
  LocalConfig (cc w) local ->
  store.initializeErr (checkpointStore (cc w)) = None ->
  store.currentPtr (checkpointStore (cc w)) = Ok None ->
  store.currentModifiedAt (checkpointStore (cc w)) = Ok T ->
  time.Sub now T > ConfigTrialDuration local ->
  exists w',
    Bootstrap now w = Some ((Some local, None), w') /\
    trace w' =
      (trace w ++ [store.CallInitialize; store.CallCurrent;
                   store.CallCurrentModified; store.CallCurrent;
                   store.CallSetLastKnownGood None])%list /\
    (store.writeErr (checkpointStore (cc w)) = None ->
     store.lastKnownGoodPtr (checkpointStore (cc w')) = Ok None) /\
    (store.writeErr (checkpointStore (cc w)) <> None ->
     store.lastKnownGoodPtr (checkpointStore (cc w')) =
       store.lastKnownGoodPtr (checkpointStore (cc w))).
Proof.
  intros Hdyn Hloc Hinit Hcur HT Hgt.
  destruct (Bootstrap_assigned_pointer w now T local None local
              Hdyn Hloc Hinit Hcur (ResolvesLocal _ _) HT)
    as (w' & Hb & Htr & Hp).
  exists w'. split; [exact Hb|].
  destruct (Z.leb_spec (time.Sub now T) (ConfigTrialDuration local));
    [lia|].
  split; [exact Htr|]. rewrite Hp. split; intros Hw.
  - now rewrite Hw.
  - destruct (store.writeErr (checkpointStore (cc w)));
      [reflexivity|congruence].
Qed.

End Promotion.

(** ** The resolver *)

(** A failure reason tells the stage and the UID apart from all others. *)
Lemma failReason_inj (st1 st2 : Stage) (u1 u2 : string) :
  failReason st1 u1 = failReason st2 u2 -> st1 = st2 /\ u1 = u2.
Proof.
  destruct st1, st2; simpl; intros H; inversion H; split; reflexivity.
Qed.

Section Resolver.
Import checkpoint.
Context {msgs : status.Messages} {validator : Validator}.

(** The resolver returns, whatever the store holds, and its result and
    calls are a function of the store and of [local] alone. *)
Lemma loadAssignedConfig_reads (w : World) local :
  exists r calls,
    forall w', checkpointStore (cc w') = checkpointStore (cc w) ->
               loadAssignedConfig local w' = Some (r, noted calls w').
Proof.
  destruct (store.currentPtr (checkpointStore (cc w))) as [[src|]|e] eqn:Hc.
  - destruct (checkpointState (checkpointStore (cc w)) (UID src))
      as [c|[st e]] eqn:Hs; eexists; eexists; intros w' Hw;
      rewrite <- Hw in Hc, Hs.
    + apply (loadAssignedConfig_sound w' local src c Hc Hs).
    + apply (loadAssignedConfig_failing w' local src st e Hc Hs).
  - eexists; eexists; intros w' Hw; rewrite <- Hw in Hc.
    apply (loadAssignedConfig_absent w' local Hc).
  - eexists; eexists; intros w' Hw; rewrite <- Hw in Hc.
    apply (loadAssignedConfig_unreadable w' local e Hc).
Qed.

(** C7, as the code has it.  When the resolver fails it returns no
    configuration, and either the [current] pointer could not be read,
    and then it returns no source and the load-failure reason tagged
    "unknown"; or the pointer was read, and then it returns that source
    and the reason of the stage at which its checkpoint fails, load, parse
    or validate, tagged with its UID, a reason that no other stage or UID
    has. *)
Theorem loadAssignedConfig_failure_reason
        (w w' : World) (local cfg : option KubeletConfiguration)
        (source : option RemoteConfigSource) (r : string) (e : error) :
  loadAssignedConfig local w = Some ((cfg, source, r, Some e), w') ->
  cfg = None /\
  ((store.currentPtr (checkpointStore (cc w)) = Err e /\
    source = None /\
    r = status.CurFailLoadReasonFmt "unknown") \/
   (exists src st,
       store.currentPtr (checkpointStore (cc w)) = Ok (Some src) /\
       source = Some src /\
       checkpointState (checkpointStore (cc w)) (UID src) = inr (st, e) /\
       r = failReason st (UID src) /\
       forall st' uid', failReason st' uid' = r ->
                        st' = st /\ uid' = UID src)).
Proof.
  intros H.
  destruct (store.currentPtr (checkpointStore (cc w))) as [[src|]|e0] eqn:Hc.
  - destruct (checkpointState (checkpointStore (cc w)) (UID src))
      as [c|[st e0]] eqn:Hs.
    + rewrite (loadAssignedConfig_sound w local src c Hc Hs) in H.
      discriminate H.
    + rewrite (loadAssignedConfig_failing w local src st e0 Hc Hs) in H.
      inversion H; subst. split; [reflexivity|]. right.
      exists src, st.
      split; [reflexivity|]. split; [reflexivity|].
      split; [exact Hs|]. split; [reflexivity|].
      intros st' uid' Hr. now apply failReason_inj.
  - rewrite (loadAssignedConfig_absent w local Hc) in H. discriminate H.
  - rewrite (loadAssignedConfig_unreadable w local e0 Hc) in H.
    inversion H; subst. split; [reflexivity|]. left. repeat split.
Qed.

(** C9.  The resolver is idempotent: a call returns a result and leaves
    the controller and the store as they were; a second call right after
    it returns the same result; and so does a call in any other state
    whose store holds the same contents. *)
Theorem loadAssignedConfig_idempotent
        (w w2 : World) (local : option KubeletConfiguration) :
  checkpointStore (cc w2) = checkpointStore (cc w) ->
  exists r w1 w1' w3,
    loadAssignedConfig local w = Some (r, w1) /\
    cc w1 = cc w /\
    loadAssignedConfig local w1 = Some (r, w1') /\
    cc w1' = cc w /\
    loadAssignedConfig local w2 = Some (r, w3) /\
    cc w3 = cc w2.
Proof.
  intros Hw.
  destruct (loadAssignedConfig_reads w local) as (r & calls & Hr).
  exists r, (noted calls w), (noted calls (noted calls w)), (noted calls w2).
  repeat split; try reflexivity; apply Hr; auto.
Qed.

End Resolver.

(** ** The pending-change signal *)

Lemma raisePending_full (c : Chan) :
  cap c = 1%nat -> length (buf c) = 1%nat -> raisePending c = c.
Proof.
  intros Hc Hb. unfold raisePending. rewrite Hc, Hb. reflexivity.
Qed.

Lemma raisePending_fills (c : Chan) :
  cap c = 1%nat -> (length (buf c) <= 1)%nat ->
  cap (raisePending c) = 1%nat /\ length (buf (raisePending c)) = 1%nat.
Proof.
  intros Hc Hb. unfold raisePending.
  destruct (buf c) as [|b [|b' rest]] eqn:E; simpl in Hb; [| |lia];
    rewrite Hc; simpl; rewrite ?E; split; auto.
Qed.

Lemma raiseTimes_full (n : nat) (c : Chan) :
  cap c = 1%nat -> length (buf c) = 1%nat -> raiseTimes n c = c.
Proof.
  intros Hc Hb. induction n as [|n IH]; simpl; [reflexivity|].
  now rewrite (raisePending_full c Hc Hb).
Qed.

(** C5.  On a channel of capacity one, as [NewController] makes it, any
    number [n >= 1] of raises in a row amounts to one raise: they leave
    exactly one value in the slot, every raise on the full slot returns at
    once with the slot as it was, and consuming takes the value out and
    leaves an empty slot, which reads as not pending. *)
Theorem pending_signal_coalesces (n : nat) (c : Chan) :
  (1 <= n)%nat ->
  cap c = 1%nat ->
  (length (buf c) <= 1)%nat ->
  raiseTimes n c = raisePending c /\
  length (buf (raiseTimes n c)) = 1%nat /\
  pending (raiseTimes n c) = true /\
  raisePending (raiseTimes n c) = raiseTimes n c /\
  exists c',
    consumePending (raiseTimes n c) = (true, c') /\
    buf c' = [] /\
    pending c' = false /\
    consumePending c' = (false, c').
Proof.
  intros Hn Hc Hb.
  destruct (raisePending_fills c Hc Hb) as [Hc1 Hb1].
  assert (Hr : raiseTimes n c = raisePending c).
  { destruct n as [|n]; [lia|]. simpl. now apply raiseTimes_full. }
  rewrite Hr. split; [reflexivity|]. split; [exact Hb1|].
  split; [|split; [now apply raisePending_full|]].
  - unfold pending. destruct (buf (raisePending c)); [discriminate|reflexivity].
  - unfold consumePending, pending.
    destruct (buf (raisePending c)) as [|b [|b' rest]]; simpl in *;
      try discriminate.
    eexists. split; [reflexivity|]. simpl. repeat split.
Qed.

(** The channel of a new controller is empty and of capacity one. *)
Lemma NewController_pendingConfigSource
      (NewFsLoader : string -> Result configfiles.Loader)
      (NewFsStore : string -> store.Store)
      (join : string -> string -> string)
      (dflt : KubeletConfiguration) (file dir : string) (c : Controller) :
  NewController NewFsLoader NewFsStore join dflt file dir = (Some c, None) ->
  pendingConfigSource c = make_chan 1 /\
  dynamicConfig c = negb (String.eqb dir "").
Proof.
  unfold NewController. intros H.
  destruct (0 <? String.length file)%nat.
  - destruct (NewFsLoader file); inversion H; subst; simpl.
    split; [reflexivity|]. now destruct dir.
  - inversion H; subst; simpl. split; [reflexivity|]. now destruct dir.
Qed.

(** ** The theorems at work *)

Section Runs.
Import checkpoint Examples.
Local Existing Instance Examples.msgs.
Local Existing Instance Examples.validator.

Lemma localCfg_is_local (s : store.Store) (dyn : bool) :
  LocalConfig (cc (start (mkController dyn localCfg s))) localCfg.
Proof. apply LocalDefaults; reflexivity. Defined.

Lemma Bootstrap_rolls_back_to_last_known_good_witness :
  exists w',
    Bootstrap now rollbackWorld = Some ((Some v1Cfg, None), w') /\
    configOK (cc w') =
      Some {| status.message := "using last-known-good: v1";
              status.reason := "validate-failed:bad";
              status.condStatus := apiv1.ConditionFalse |} /\
    checkpointStore (cc w') = checkpointStore (cc rollbackWorld).
Proof.
  refine (Bootstrap_rolls_back_to_last_known_good
            rollbackWorld now localCfg v1Cfg bad (Some v1)
            StageValidate "invalid settings" _ _ _ _ _ _ _);
    try reflexivity.
  - apply localCfg_is_local.
  - apply ResolvesRemote. reflexivity.
Defined.

Lemma Bootstrap_fails_without_last_known_good_witness :
  exists e w',
    Bootstrap now noFallbackWorld = Some ((None, Some e), w') /\
    cc w' = cc noFallbackWorld.
Proof.
  apply (Bootstrap_fails_without_last_known_good noFallbackWorld now).
  - reflexivity.
  - apply (FailsCheckpoint _ garbled StageParse "unexpected end of input").
    reflexivity.
  - apply (FailsCheckpoint _ bad StageValidate "invalid settings").
    reflexivity.
Defined.

Lemma Bootstrap_rejects_invalid_local_witness :
  exists e, Bootstrap now invalidLocalWorld = Some ((None, Some e), invalidLocalWorld).
Proof.
  apply (Bootstrap_rejects_invalid_local invalidLocalWorld now).
  apply (InvalidDefaults _ "invalid settings"). reflexivity.
Defined.

(** C4 as stated fails where the store refuses the write: the trial of
    v2 is over, [Bootstrap] returns v2, and the last-known-good pointer is
    still v1, not v2. *)
Lemma trial_promotion_write_failure :
  dynamicConfig (cc writeFailureWorld) = true /\
  store.currentPtr (checkpointStore (cc writeFailureWorld)) = Ok (Some v2) /\
  checkpointState (checkpointStore (cc writeFailureWorld)) (UID v2)
    = inl v2Cfg /\
  store.currentModifiedAt (checkpointStore (cc writeFailureWorld))
    = Ok modified /\
  now - modified > ConfigTrialDuration v2Cfg /\
  exists w',
    Bootstrap now writeFailureWorld = Some ((Some v2Cfg, None), w') /\
    store.lastKnownGoodPtr (checkpointStore (cc w')) = Ok (Some v1) /\
    store.lastKnownGoodPtr (checkpointStore (cc w')) <> Ok (Some v2).
Proof.
  repeat (split; [reflexivity|]).
  eexists. split; [reflexivity|]. split; [reflexivity|].
  simpl. discriminate.
Qed.

Lemma Bootstrap_trial_promotion_witness :
  exists w',
    Bootstrap now graduatingWorld = Some ((Some v2Cfg, None), w') /\
    store.lastKnownGoodPtr (checkpointStore (cc w')) = Ok (Some v2).
Proof.
  destruct (Bootstrap_trial_promotion graduatingWorld now modified localCfg
              v2Cfg v2)
    as (w' & Hreturns & _ & Hover & _); try reflexivity.
  - apply localCfg_is_local.
  - exists w'. split; [exact Hreturns|]. apply Hover; reflexivity.
Defined.

Lemma pending_signal_coalesces_witness :
  raiseTimes 3 (make_chan 1) = raisePending (make_chan 1) /\
  length (buf (raiseTimes 3 (make_chan 1))) = 1%nat /\
  pending (raiseTimes 3 (make_chan 1)) = true /\
  raisePending (raiseTimes 3 (make_chan 1)) = raiseTimes 3 (make_chan 1) /\
  exists c',
    consumePending (raiseTimes 3 (make_chan 1)) = (true, c') /\
    buf c' = [] /\
    pending c' = false /\
    consumePending c' = (false, c').
Proof.
  apply (pending_signal_coalesces 3 (make_chan 1)); simpl; lia.
Defined.

Lemma absent_current_resolves_to_local_witness :
  (exists w',
      loadAssignedConfig (Some localCfg) localWorld =
        Some ((Some localCfg, None, "local-ok", None), w') /\
      cc w' = cc localWorld) /\
  (exists w',
      Bootstrap now localWorld = Some ((Some localCfg, None), w') /\
      configOK (cc w') =
        Some {| status.message := "using current: local";
                status.reason := "local-ok";
                status.condStatus := apiv1.ConditionTrue |}).
Proof.
  destruct (absent_current_resolves_to_local localWorld now localCfg)
    as [Hresolver Hbootstrap].
  - apply localCfg_is_local.
  - reflexivity.
  - split; [exact Hresolver|]. apply Hbootstrap; reflexivity.
Defined.

(** C7 as stated fails where the [current] pointer cannot be read: the
    resolver fails, names no source, and tags its reason "unknown", the UID
    of no source at hand; a checkpoint of UID "unknown" that cannot be
    loaded gives the very same reason. *)
Lemma unreadable_current_names_no_uid :
  store.currentPtr (checkpointStore (cc unreadableWorld))
    = Err "input/output error" /\
  (exists w',
      loadAssignedConfig (Some localCfg) unreadableWorld =
        Some ((None, None, "load-failed:unknown", Some "input/output error"),
              w')) /\
  ~ (exists (src : RemoteConfigSource) (st : Stage),
        (None : option RemoteConfigSource) = Some src /\
        "load-failed:unknown" = failReason st (UID src)) /\
  (exists w',
      loadAssignedConfig (Some localCfg) unknownUidWorld =
        Some ((None, Some {| UID := "unknown" |}, "load-failed:unknown",
               Some "no such checkpoint"), w')).
Proof.
  split; [reflexivity|]. split; [eexists; reflexivity|]. split.
  - intros (src & st & H & _). discriminate H.
  - eexists. cbv. reflexivity.
Qed.

Lemma loadAssignedConfig_failure_reason_witness :
  (None : option KubeletConfiguration) = None /\
  ((store.currentPtr (checkpointStore (cc rollbackWorld))
      = Err "invalid settings" /\
    Some bad = None /\
    "validate-failed:bad" = status.CurFailLoadReasonFmt "unknown") \/
   (exists src st,
       store.currentPtr (checkpointStore (cc rollbackWorld))
         = Ok (Some src) /\
       Some bad = Some src /\
       checkpointState (checkpointStore (cc rollbackWorld)) (UID src)
         = inr (st, "invalid settings") /\
       "validate-failed:bad" = failReason st (UID src) /\
       forall st' uid', failReason st' uid' = "validate-failed:bad" ->
                        st' = st /\ uid' = UID src)).
Proof.
  apply (loadAssignedConfig_failure_reason
           rollbackWorld
           (noted [store.CallCurrent; store.CallLoad "bad"] rollbackWorld)
           (Some localCfg) None (Some bad) "validate-failed:bad"
           "invalid settings").
  reflexivity.
Defined.

Lemma Bootstrap_dynamic_disabled_witness :
  exists w',
    Bootstrap now staticWorld = Some ((Some localCfg, None), w') /\
    configOK (cc w') =
      Some {| status.message := "using local, dynamic disabled";
              status.reason := "dynamic-disabled";
              status.condStatus := apiv1.ConditionTrue |} /\
    trace w' = trace staticWorld /\
    checkpointStore (cc w') = checkpointStore (cc staticWorld).
Proof.
  refine (Bootstrap_dynamic_disabled staticWorld now localCfg _ _).
  - reflexivity.
  - apply localCfg_is_local.
Defined.

Lemma loadAssignedConfig_idempotent_witness :
  exists r w1 w1' w3,
    loadAssignedConfig (Some localCfg) rollbackWorld = Some (r, w1) /\
    cc w1 = cc rollbackWorld /\
    loadAssignedConfig (Some localCfg) w1 = Some (r, w1') /\
    cc w1' = cc rollbackWorld /\
    loadAssignedConfig (Some localCfg) laterWorld = Some (r, w3) /\
    cc w3 = cc laterWorld.
Proof.
  apply (loadAssignedConfig_idempotent rollbackWorld laterWorld
           (Some localCfg)).
  reflexivity.
Defined.

(** C10 as stated fails where the store refuses the write: [current] is
    absent, the trial is over, [Bootstrap] returns the local
    configuration, and the last-known-good pointer is still v1. *)
Lemma absent_graduation_write_failure :
  dynamicConfig (cc localWriteFailureWorld) = true /\
  store.currentPtr (checkpointStore (cc localWriteFailureWorld)) = Ok None /\
  store.currentModifiedAt (checkpointStore (cc localWriteFailureWorld))
    = Ok modified /\
  now - modified > ConfigTrialDuration localCfg /\
  store.lastKnownGoodPtr (checkpointStore (cc localWriteFailureWorld))
    = Ok (Some v1) /\
  exists w',
    Bootstrap now localWriteFailureWorld = Some ((Some localCfg, None), w') /\
    store.lastKnownGoodPtr (checkpointStore (cc w')) = Ok (Some v1) /\
    store.lastKnownGoodPtr (checkpointStore (cc w')) <> Ok None.
Proof.
  repeat (split; [reflexivity|]).
  eexists. split; [reflexivity|]. split; [reflexivity|].
  simpl. discriminate.
Qed.

Lemma Bootstrap_graduates_absent_current_witness :
  exists w',
    Bootstrap now localWorld = Some ((Some localCfg, None), w') /\
    trace w' =
      [store.CallInitialize; store.CallCurrent;
       store.CallCurrentModified; store.CallCurrent;
       store.CallSetLastKnownGood None] /\
    store.lastKnownGoodPtr (checkpointStore (cc localWorld)) = Ok (Some v1) /\
    store.lastKnownGoodPtr (checkpointStore (cc w')) = Ok None.
Proof.
  destruct (Bootstrap_graduates_absent_current localWorld now modified
              localCfg)
    as (w' & Hreturns & Hcalls & Hover & _); try reflexivity.
  - apply localCfg_is_local.
  - exists w'. split; [exact Hreturns|]. split; [exact Hcalls|].
    split; [reflexivity|]. apply Hover; reflexivity.
Defined.

End Runs.

(** * Further properties of the controller *)

(** ** Every run of Bootstrap *)

Section AllRuns.
Import checkpoint.
Context {msgs : status.Messages} {validator : Validator}.

Lemma local_cases (c : Controller) :
  (exists local, LocalConfig c local) \/ (exists e, LocalFails c e).
Proof.
  destruct (ValidateKubeletConfiguration (defaultConfig c)) as [e|] eqn:Hd.
  - right. eexists. apply FailsDefaults. exact Hd.
  - destruct (fileLoader c) as [l|] eqn:Hl.
    + destruct (configfiles.Load l) as [kc|e] eqn:Hk.
      * destruct (ValidateKubeletConfiguration kc) as [e|] eqn:Hv.
        -- right. eexists. apply (FailsFileValidation c l kc e); assumption.
        -- left. exists kc. now apply (LocalFile c l kc).
      * right. exists e. now apply (FailsFileLoad c l e).
    + left. exists (defaultConfig c). now apply LocalDefaults.
Qed.

Lemma loadLocalConfig_fails (w : World) (e : error) :
  LocalFails (cc w) e ->
  loadLocalConfig w = Some ((None, Some e), w).
Proof.
  intros H. unfold loadLocalConfig, bind, gets, ret.
  destruct H as [e Hd | l e Hd Hl Hk | l kc e Hd Hl Hk Hv].
  - now rewrite Hd.
  - now rewrite Hd, Hl, Hk.
  - now rewrite Hd, Hl, Hk, Hv.
Qed.

Lemma assigned_cases (s : store.Store) (local : KubeletConfiguration) :
  (exists p a, store.currentPtr s = Ok p /\ Resolves s local p a) \/
  (exists src r e, AssignedFails s src r e).
Proof.
  destruct (store.currentPtr s) as [[src|]|e] eqn:Hc.
  - destruct (checkpointState s (UID src)) as [a|[st e]] eqn:Hs.
    + left. exists (Some src), a. split; [reflexivity|].
      now apply ResolvesRemote.
    + right. do 3 eexists. apply (AssignedCheckpoint s src st e); assumption.
  - left. exists None, local. split; [reflexivity|]. apply ResolvesLocal.
  - right. do 3 eexists. apply (AssignedUnreadable s e); assumption.
Qed.

Lemma lkg_cases (s : store.Store) (local : KubeletConfiguration) :
  (exists p c, store.lastKnownGoodPtr s = Ok p /\ Resolves s local p c) \/
  (exists src e, LkgFails s src e).
Proof.
  destruct (store.lastKnownGoodPtr s) as [[src|]|e] eqn:Hc.
  - destruct (checkpointState s (UID src)) as [a|[st e]] eqn:Hs.
    + left. exists (Some src), a. split; [reflexivity|].
      now apply ResolvesRemote.
    + right. do 2 eexists. apply (LkgCheckpoint s src st e); assumption.
  - left. exists None, local. split; [reflexivity|]. apply ResolvesLocal.
  - right. do 2 eexists. apply (LkgUnreadable s e); assumption.
Qed.

Lemma loadAssignedConfig_AssignedFails (w : World) local src r e :
  AssignedFails (checkpointStore (cc w)) src r e ->
  loadAssignedConfig local w =
    Some ((None, src, r, Some e),
          noted (store.CallCurrent :: loadCalls src) w).
Proof.
  intros H. destruct H as [e Hc | src st e Hc Hs].
  - now apply loadAssignedConfig_unreadable.
  - now apply loadAssignedConfig_failing.
Qed.

Lemma loadLastKnownGoodConfig_LkgFails (w : World) local src e :
  LkgFails (checkpointStore (cc w)) src e ->
  loadLastKnownGoodConfig local w =
    Some ((None, src, Some e),
          noted (store.CallLastKnownGood :: loadCalls src) w).
Proof.
  intros H. destruct H as [e Hc | src st e Hc Hs].
  - open_world w. reflexivity.
  - open_world w. destruct st; open_checkpoint Hs;
      unfold loadLastKnownGoodConfig, bind, onStore, ret, noted; simpl;
      rewrite E; simpl; rewrite <- ?app_assoc; try reflexivity.
    + rewrite E0. reflexivity.
    + rewrite E0, E1. reflexivity.
Qed.

(** The failing path of [Bootstrap] up to the last-known-good pointer. *)
Lemma Bootstrap_fallback (w : World) (now : time.Time) local src r e :
  LocalConfig (cc w) local ->
  dynamicConfig (cc w) = true ->
  store.initializeErr (checkpointStore (cc w)) = None ->
  AssignedFails (checkpointStore (cc w)) src r e ->
  Bootstrap now w =
    match loadLastKnownGoodConfig (Some local) (fallbackWorld src w) with
    | Some ((lkg, lkgSource, Some le), w') => Some ((None, Some le), w')
    | Some ((lkg, lkgSource, None), w') =>
        Some ((lkg, None), published (rollbackCondition lkgSource r) w')
    | None => None
    end.
Proof.
  intros Hloc Hdyn Hinit Hfail.
  unfold Bootstrap, bind.
  rewrite (loadLocalConfig_valid w local Hloc).
  unfold gets. rewrite Hdyn. cbn [negb].
  rewrite initializeDynamicConfigDir_step, Hinit.
  rewrite (loadAssignedConfig_AssignedFails _ (Some local) src r e)
    by exact Hfail.
  unfold fallbackWorld.
  destruct (loadLastKnownGoodConfig (Some local) _)
    as [[[[lkg lkgSource] [le|]] w']|]; try reflexivity.
  destruct lkgSource; reflexivity.
Qed.

(** [Bootstrap] returns, and by one of the six ways. *)
Lemma Bootstrap_run (w : World) (now : time.Time) :
  exists r w', Bootstrap now w = Some (r, w') /\ BootstrapRun now w r w'.
Proof.
  destruct (local_cases (cc w)) as [[local Hloc]|[e He]].
  2:{ exists (None, Some e), w. split; [|now apply RunLocalFailure].
      unfold Bootstrap, bind. now rewrite (loadLocalConfig_fails w e He). }
  destruct (dynamicConfig (cc w)) eqn:Hdyn.
  2:{ eexists; eexists. split; [|now apply (RunStatic now w local)].
      unfold Bootstrap, bind. rewrite (loadLocalConfig_valid w local Hloc).
      unfold gets. rewrite Hdyn. reflexivity. }
  destruct (store.initializeErr (checkpointStore (cc w))) as [e|] eqn:Hinit.
  { eexists; eexists.
    split; [|now apply (RunInitializeFailure now w local e)].
    unfold Bootstrap, bind. rewrite (loadLocalConfig_valid w local Hloc).
    unfold gets. rewrite Hdyn. cbn [negb].
    rewrite initializeDynamicConfigDir_step, Hinit. reflexivity. }
  destruct (assigned_cases (checkpointStore (cc w)) local)
    as [(p & a & Hcur & Hres)|(src & r & e & Hfail)].
  { eexists; eexists.
    split; [|now apply (RunAssigned now w local p a)].
    now apply (Bootstrap_assigned w now local p a). }
  rewrite (Bootstrap_fallback w now local src r e Hloc Hdyn Hinit Hfail).
  destruct (lkg_cases (checkpointStore (cc w)) local)
    as [(p & c & Hlkg & Hres)|(lsrc & le & Hlf)].
  - rewrite (loadLastKnownGoodConfig_resolves _ local p c) by assumption.
    eexists; eexists. split; [reflexivity|].
    now apply (RunRollback now w local src r e p c).
  - rewrite (loadLastKnownGoodConfig_LkgFails _ (Some local) lsrc le)
      by exact Hlf.
    eexists; eexists. split; [reflexivity|].
    now apply (RunNoFallback now w local src r e lsrc le).
Qed.

(** Whatever [Bootstrap] gives, it gives by one of the six ways. *)
Lemma Bootstrap_inv (w w' : World) (now : time.Time) r :
  Bootstrap now w = Some (r, w') -> BootstrapRun now w r w'.
Proof.
  intros H. destruct (Bootstrap_run w now) as (r0 & w0 & H0 & Hrun).
  rewrite H0 in H. inversion H; subst. exact Hrun.
Qed.

End AllRuns.

Section Guarantees.
Import checkpoint.
Context {msgs : status.Messages} {validator : Validator}.

Lemma LocalConfig_valid (c : Controller) (local : KubeletConfiguration) :
  LocalConfig c local -> ValidateKubeletConfiguration local = None.
Proof. intros [Hd Hl | l kc Hd Hl Hk Hv]; assumption. Qed.

Lemma Resolves_valid (s : store.Store) (local a : KubeletConfiguration) p :
  ValidateKubeletConfiguration local = None ->
  Resolves s local p a ->
  ValidateKubeletConfiguration a = None.
Proof.
  intros Hl [|src c Hc]; [exact Hl|]. open_checkpoint Hc. assumption.
Qed.

(** The store after [SetLastKnownGood]: only the last-known-good pointer
    can differ, and then it holds the value written. *)
Lemma SetLastKnownGood_footprint (s : store.Store) p :
  let s' := snd (store.SetLastKnownGood p s) in
  store.initializeErr s' = store.initializeErr s /\
  store.blobs s' = store.blobs s /\
  store.currentPtr s' = store.currentPtr s /\
  store.currentModifiedAt s' = store.currentModifiedAt s /\
  store.writeErr s' = store.writeErr s /\
  (store.lastKnownGoodPtr s' = store.lastKnownGoodPtr s \/
   store.lastKnownGoodPtr s' = Ok p).
Proof.
  unfold store.SetLastKnownGood. destruct (store.writeErr s) eqn:E; simpl;
    rewrite ?E; repeat split; auto.
Qed.


(** X2.  A configuration that [Bootstrap] returns passes validation, and
    comes without an error. *)
Theorem Bootstrap_returns_valid_config
        (w w' : World) (now : time.Time) (c : KubeletConfiguration)
        (err : option error) :
  Bootstrap now w = Some ((Some c, err), w') ->
  ValidateKubeletConfiguration c = None /\ err = None.
Proof.
  intros H. apply Bootstrap_inv in H.
  inversion H; subst; split; try reflexivity;
    eauto using LocalConfig_valid, Resolves_valid.
Qed.

(** X3.  When [Bootstrap] returns an error it returns no configuration and
    leaves the controller as it was: nothing is published and nothing is
    written to the store. *)
Theorem Bootstrap_error_changes_nothing
        (w w' : World) (now : time.Time) (cfg : option KubeletConfiguration)
        (e : error) :
  Bootstrap now w = Some ((cfg, Some e), w') ->
  cfg = None /\ cc w' = cc w.
Proof.
  intros H. apply Bootstrap_inv in H.
  inversion H; subst; split; reflexivity.
Qed.

(** X4.  [Bootstrap] changes nothing of the controller but the published
    condition and the last-known-good pointer of the store; the pointer is
    either as before or holds what the [current] pointer holds. *)
Theorem Bootstrap_footprint
        (w w' : World) (now : time.Time)
        (r : option KubeletConfiguration * option error) :
  Bootstrap now w = Some (r, w') ->
  dynamicConfig (cc w') = dynamicConfig (cc w) /\
  defaultConfig (cc w') = defaultConfig (cc w) /\
  fileLoader (cc w') = fileLoader (cc w) /\
  pendingConfigSource (cc w') = pendingConfigSource (cc w) /\
  store.initializeErr (checkpointStore (cc w'))
    = store.initializeErr (checkpointStore (cc w)) /\
  store.blobs (checkpointStore (cc w')) = store.blobs (checkpointStore (cc w)) /\
  store.currentPtr (checkpointStore (cc w'))
    = store.currentPtr (checkpointStore (cc w)) /\
  store.currentModifiedAt (checkpointStore (cc w'))
    = store.currentModifiedAt (checkpointStore (cc w)) /\
  store.writeErr (checkpointStore (cc w'))
    = store.writeErr (checkpointStore (cc w)) /\
  (store.lastKnownGoodPtr (checkpointStore (cc w'))
     = store.lastKnownGoodPtr (checkpointStore (cc w)) \/
   store.lastKnownGoodPtr (checkpointStore (cc w'))
     = store.currentPtr (checkpointStore (cc w))).
Proof.
  intros H. apply Bootstrap_inv in H.
  inversion H; subst; try (repeat split; auto; fail).
  destruct (trialOver now (checkpointStore (cc w)) a);
    [|repeat split; auto].
  destruct (SetLastKnownGood_footprint (checkpointStore (cc w)) p)
    as (F1 & F2 & F3 & F4 & F5 & F6).
  simpl. repeat split; auto.
  destruct F6 as [F6|F6]; [left; exact F6|right].
  rewrite F6. symmetry. assumption.
Qed.

(** X5.  Every call [Bootstrap] makes on the store comes after one call of
    [Initialize], its first, and the only write it makes,
    [SetLastKnownGood], carries the value of the [current] pointer. *)
Theorem Bootstrap_initializes_first
        (w w' : World) (now : time.Time)
        (r : option KubeletConfiguration * option error) :
  Bootstrap now w = Some (r, w') ->
  exists calls,
    trace w' = (trace w ++ calls)%list /\
    (calls = [] \/
     exists rest, calls = store.CallInitialize :: rest /\
                  ~ In store.CallInitialize rest) /\
    (forall source, In (store.CallSetLastKnownGood source) calls ->
                    store.currentPtr (checkpointStore (cc w)) = Ok source).
Proof.
  intros H. apply Bootstrap_inv in H.
  inversion H; subst;
    try match goal with
        | |- context [trialOver ?n ?s ?a] => destruct (trialOver n s a)
        end;
    eexists;
    (split;
     [unfold assignedWorld, fallbackWorld, graduated, published, noted; simpl;
      rewrite <- ?app_assoc; try reflexivity;
      symmetry; apply app_nil_r |]);
    (split;
     [first [left; reflexivity
            |right; eexists; split; [reflexivity|];
             repeat match goal with
                    | x : option RemoteConfigSource |- _ => destruct x
                    end;
             simpl; intuition discriminate]
     |intros source;
      repeat match goal with
             | x : option RemoteConfigSource |- _ => destruct x
             end;
      simpl; intuition (discriminate || congruence)]).
Qed.

End Guarantees.

(** ** The stages of Bootstrap, one by one *)

Section Stages.
Import checkpoint.
Context {msgs : status.Messages} {validator : Validator}.

(** X6.  When [loadLocalConfig] returns a configuration, the defaults and
    the configuration returned are both valid, the configuration is the
    content of the config file if the controller has a loader and the
    defaults if not, no error comes with it, and the state is untouched. *)
Theorem loadLocalConfig_success
        (w w' : World) (local : KubeletConfiguration) (err : option error) :
  loadLocalConfig w = Some ((Some local, err), w') ->
  err = None /\ w' = w /\
  ValidateKubeletConfiguration (defaultConfig (cc w)) = None /\
  ValidateKubeletConfiguration local = None /\
  match fileLoader (cc w) with
  | Some l => configfiles.Load l = Ok local
  | None => local = defaultConfig (cc w)
  end.
Proof.
  intros H.
  destruct (local_cases (cc w)) as [[local0 Hloc]|[e He]].
  - rewrite (loadLocalConfig_valid w local0 Hloc) in H.
    inversion H; subst. split; [reflexivity|]. split; [reflexivity|].
    destruct Hloc as [Hd Hl | l kc Hd Hl Hk Hv]; rewrite Hl; auto.
  - rewrite (loadLocalConfig_fails w e He) in H. discriminate H.
Qed.

(** X7.  When the local configuration cannot be had, [Bootstrap] returns
    the error of the first check that fails and touches nothing: invalid
    defaults are reported as such whatever the config file holds, a file
    that cannot be loaded gives the loader's error as it is, and an invalid
    file is reported as such. *)
Theorem Bootstrap_local_failure (w : World) (now : time.Time) (e : error) :
  LocalFails (cc w) e ->
  Bootstrap now w = Some ((None, Some e), w).
Proof.
  intros H. unfold Bootstrap, bind.
  now rewrite (loadLocalConfig_fails w e H).
Qed.

(** X8.  When the store cannot be initialised, [Bootstrap] returns the
    error of [Initialize] and no configuration, makes no other call on the
    store, and publishes nothing. *)
Theorem Bootstrap_initialize_failure
        (w : World) (now : time.Time) (local : KubeletConfiguration)
        (e : error) :
  LocalConfig (cc w) local ->
  dynamicConfig (cc w) = true ->
  store.initializeErr (checkpointStore (cc w)) = Some e ->
  exists w',
    Bootstrap now w = Some ((None, Some e), w') /\
    cc w' = cc w /\
    trace w' = (trace w ++ [store.CallInitialize])%list.
Proof.
  intros Hloc Hdyn Hinit.
  unfold Bootstrap, bind. rewrite (loadLocalConfig_valid w local Hloc).
  unfold gets. rewrite Hdyn. cbn [negb].
  rewrite initializeDynamicConfigDir_step, Hinit.
  eexists. split; [reflexivity|]. split; reflexivity.
Qed.

(** X9.  When [current] names a checkpoint that loads, parses and
    validates, [Bootstrap] returns its configuration and publishes a true
    condition whose message is made from the UID and whose reason is the
    constant [CurRemoteOkayReason], the same for every UID. *)
Theorem Bootstrap_remote_assigned
        (w : World) (now : time.Time) (local a : KubeletConfiguration)
        (src : RemoteConfigSource) :
  LocalConfig (cc w) local ->
  dynamicConfig (cc w) = true ->
  store.initializeErr (checkpointStore (cc w)) = None ->
  store.currentPtr (checkpointStore (cc w)) = Ok (Some src) ->
  checkpointState (checkpointStore (cc w)) (UID src) = inl a ->
  exists w',
    Bootstrap now w = Some ((Some a, None), w') /\
    configOK (cc w') =
      Some {| status.message := status.CurRemoteMessageFmt (UID src);
              status.reason := status.CurRemoteOkayReason;
              status.condStatus := apiv1.ConditionTrue |}.
Proof.
  intros Hloc Hdyn Hinit Hcur Hok.
  rewrite (Bootstrap_assigned w now local (Some src) a Hdyn Hloc Hinit Hcur
             (ResolvesRemote _ _ src a Hok)).
  eexists. split; [reflexivity|].
  destruct (trialOver now (checkpointStore (cc w)) a); reflexivity.
Qed.

(** X10.  When the assigned configuration resolves but the modification
    time of [current] cannot be read, [Bootstrap] does not graduate: it
    returns the assigned configuration, leaves the store as it was, and its
    last call on the store is the failed [CurrentModified]. *)
Theorem Bootstrap_unreadable_timestamp
        (w : World) (now : time.Time) (local a : KubeletConfiguration)
        (p : option RemoteConfigSource) (e : error) :
  LocalConfig (cc w) local ->
  dynamicConfig (cc w) = true ->
  store.initializeErr (checkpointStore (cc w)) = None ->
  store.currentPtr (checkpointStore (cc w)) = Ok p ->
  Resolves (checkpointStore (cc w)) local p a ->
  store.currentModifiedAt (checkpointStore (cc w)) = Err e ->
  exists w',
    Bootstrap now w = Some ((Some a, None), w') /\
    checkpointStore (cc w') = checkpointStore (cc w) /\
    trace w' =
      (trace w ++ [store.CallInitialize; store.CallCurrent] ++ loadCalls p
         ++ [store.CallCurrentModified])%list.
Proof.
  intros Hloc Hdyn Hinit Hcur Hres Ht.
  rewrite (Bootstrap_assigned w now local p a Hdyn Hloc Hinit Hcur Hres).
  unfold trialOver. rewrite Ht.
  eexists. split; [reflexivity|]. split; [reflexivity|].
  unfold assignedWorld, noted; simpl. now rewrite <- !app_assoc.
Qed.

(** X11.  When the [current] pointer itself cannot be read and
    last-known-good resolves, [Bootstrap] rolls back: it returns the
    last-known-good configuration and publishes a false condition with the
    load-failure reason tagged "unknown". *)
Theorem Bootstrap_unreadable_current
        (w : World) (now : time.Time) (local lkg : KubeletConfiguration)
        (p : option RemoteConfigSource) (e : error) :
  LocalConfig (cc w) local ->
  dynamicConfig (cc w) = true ->
  store.initializeErr (checkpointStore (cc w)) = None ->
  store.currentPtr (checkpointStore (cc w)) = Err e ->
  store.lastKnownGoodPtr (checkpointStore (cc w)) = Ok p ->
  Resolves (checkpointStore (cc w)) local p lkg ->
  exists w',
    Bootstrap now w = Some ((Some lkg, None), w') /\
    configOK (cc w') =
      Some {| status.message := lkgMessage p;
              status.reason := "load-failed:unknown";
              status.condStatus := apiv1.ConditionFalse |} /\
    checkpointStore (cc w') = checkpointStore (cc w).
Proof.
  intros Hloc Hdyn Hinit Hcur Hlkg Hres.
  rewrite (Bootstrap_fallback w now local None _ e Hloc Hdyn Hinit
             (AssignedUnreadable _ e Hcur)).
  rewrite (loadLastKnownGoodConfig_resolves _ local p lkg) by assumption.
  eexists. split; [reflexivity|]. split; [reflexivity|].
  simpl. now destruct w as [[] ?].
Qed.

(** X12.  When neither pointer resolves, the error [Bootstrap] returns is
    that of the last-known-good stage: the unreadable pointer, or the
    reason of the failing stage of its checkpoint followed by the
    underlying error.  The error of the assigned configuration is not
    returned. *)
Theorem Bootstrap_no_fallback_error
        (w : World) (now : time.Time) (local : KubeletConfiguration)
        (src lsrc : option RemoteConfigSource) (r : string) (e le : error) :
  LocalConfig (cc w) local ->
  dynamicConfig (cc w) = true ->
  store.initializeErr (checkpointStore (cc w)) = None ->
  AssignedFails (checkpointStore (cc w)) src r e ->
  LkgFails (checkpointStore (cc w)) lsrc le ->
  exists w', Bootstrap now w = Some ((None, Some le), w') /\ cc w' = cc w.
Proof.
  intros Hloc Hdyn Hinit Hfail Hlf.
  rewrite (Bootstrap_fallback w now local src r e Hloc Hdyn Hinit Hfail).
  rewrite (loadLastKnownGoodConfig_LkgFails _ (Some local) lsrc le)
    by exact Hlf.
  eexists. split; reflexivity.
Qed.

(** X13.  A configuration comes back from [Bootstrap] with a condition
    published that is true or false, never unknown.  It is false only when
    the assigned configuration failed to resolve, and its reason is then
    the reason of that failure; it is true, with dynamic configuration
    enabled, only when the configuration returned is the one the [current]
    pointer resolves to. *)
Theorem Bootstrap_condition_polarity
        (w w' : World) (now : time.Time) (c : KubeletConfiguration)
        (err : option error) :
  Bootstrap now w = Some ((Some c, err), w') ->
  exists k,
    configOK (cc w') = Some k /\
    status.condStatus k <> apiv1.ConditionUnknown /\
    (status.condStatus k = apiv1.ConditionFalse ->
     exists src e,
       AssignedFails (checkpointStore (cc w)) src (status.reason k) e) /\
    (status.condStatus k = apiv1.ConditionTrue ->
     dynamicConfig (cc w) = true ->
     exists local p,
       LocalConfig (cc w) local /\
       store.currentPtr (checkpointStore (cc w)) = Ok p /\
       Resolves (checkpointStore (cc w)) local p c).
Proof.
  intros H. apply Bootstrap_inv in H. inversion H; subst.
  - eexists. split; [reflexivity|]. simpl.
    split; [discriminate|]. split; [discriminate|]. congruence.
  - exists (assignedCondition p).
    split; [destruct (trialOver now (checkpointStore (cc w)) c); reflexivity|].
    destruct p; simpl; (split; [discriminate|]); (split; [discriminate|]);
      eauto.
  - eexists. split; [reflexivity|]. simpl.
    split; [discriminate|]. split; [eauto|discriminate].
Qed.

End Stages.

(** ** Trial and graduation *)

Section Trial.
Import checkpoint.
Context {msgs : status.Messages} {validator : Validator}.

(** X14.  [graduateAssignedToLastKnownGood] always returns.  When it
    returns no error, the last-known-good pointer reads what the [current]
    pointer reads and nothing else in the store has changed; when it
    returns an error, the store is as it was, and if the error came from
    reading [current] no write was attempted. *)
Theorem graduate_copies_current (w : World) :
  exists err w',
    graduateAssignedToLastKnownGood w = Some (err, w') /\
    store.currentPtr (checkpointStore (cc w'))
      = store.currentPtr (checkpointStore (cc w)) /\
    match err with
    | None =>
        store.lastKnownGoodPtr (checkpointStore (cc w'))
          = store.currentPtr (checkpointStore (cc w'))
    | Some e =>
        checkpointStore (cc w') = checkpointStore (cc w) /\
        (store.currentPtr (checkpointStore (cc w)) = Err e ->
         trace w' = (trace w ++ [store.CallCurrent])%list)
    end.
Proof.
  destruct (store.currentPtr (checkpointStore (cc w))) as [p|e] eqn:Hc.
  - rewrite (graduate_step w p Hc).
    destruct (store.writeErr (checkpointStore (cc w))) as [e|] eqn:Hw.
    + rewrite (graduated_failed w p e Hw).
      eexists; eexists. split; [reflexivity|]. simpl.
      split; [exact Hc|]. split; [reflexivity|]. discriminate.
    + eexists; eexists. split; [reflexivity|].
      destruct (SetLastKnownGood_footprint (checkpointStore (cc w)) p)
        as (_ & _ & F3 & _).
      simpl in *. rewrite F3, Hc. split; [reflexivity|].
      apply (graduated_pointer w p Hw).
  - open_world w. eexists; eexists. split; [reflexivity|]. simpl.
    split; [reflexivity|]. split; reflexivity.
Qed.

(** X15.  Graduating twice is graduating once: a second graduation right
    after a successful one succeeds and leaves the store as the first left
    it. *)
Theorem graduate_twice (w w1 : World) :
  graduateAssignedToLastKnownGood w = Some (None, w1) ->
  exists w2,
    graduateAssignedToLastKnownGood w1 = Some (None, w2) /\
    checkpointStore (cc w2) = checkpointStore (cc w1).
Proof.
  intros H.
  destruct (store.currentPtr (checkpointStore (cc w))) as [p|e] eqn:Hc.
  - rewrite (graduate_step w p Hc) in H.
    destruct (store.writeErr (checkpointStore (cc w))) as [e|] eqn:Hw;
      [discriminate H|].
    inversion H; subst; clear H.
    open_world w.
    unfold graduateAssignedToLastKnownGood, bind, onStore, ret, graduated,
      noted, store.SetLastKnownGood; simpl.
    eexists. split; reflexivity.
  - open_world w. discriminate H.
Qed.

(** X16.  [inTrial] with a readable modification time [t] and a trial
    duration below the largest [Duration] answers whether [now - t] is at
    most the duration, however far apart the two times are; with the
    largest [Duration] as trial duration it always answers yes. *)
Theorem inTrial_exact
        (w : World) (now t : time.Time) (d : time.Duration) :
  store.currentModifiedAt (checkpointStore (cc w)) = Ok t ->
  time.minDuration <= d <= time.maxDuration ->
  exists w',
    inTrial now d w = Some ((if d =? time.maxDuration then true
                             else now - t <=? d, None), w') /\
    cc w' = cc w.
Proof.
  intros Ht [Hlo Hhi]. rewrite (inTrial_step w now t d Ht).
  exists (noted [store.CallCurrentModified] w). split; [|reflexivity].
  destruct (Z.eqb_spec d time.maxDuration) as [->|Hne].
  - destruct (time_Sub_range now t) as [_ Hr].
    destruct (Z.leb_spec (time.Sub now t) time.maxDuration);
      [reflexivity|lia].
  - rewrite time_Sub_leb by lia. reflexivity.
Qed.

End Trial.

(** ** The two resolvers *)

Section Resolvers.
Import checkpoint.
Context {msgs : status.Messages} {validator : Validator}.

(** X17.  The two resolvers agree: when the [current] and the
    last-known-good pointer read the same, both return the same
    configuration and the same source, and one returns an error exactly
    when the other does. *)
Theorem resolvers_agree (w : World) (local : KubeletConfiguration) :
  store.lastKnownGoodPtr (checkpointStore (cc w))
    = store.currentPtr (checkpointStore (cc w)) ->
  exists cfg src r err lerr w1 w2,
    loadAssignedConfig (Some local) w = Some ((cfg, src, r, err), w1) /\
    loadLastKnownGoodConfig (Some local) w = Some ((cfg, src, lerr), w2) /\
    (err = None <-> lerr = None).
Proof.
  intros Heq.
  destruct (assigned_cases (checkpointStore (cc w)) local)
    as [(p & a & Hcur & Hres)|(src & r & e & Hfail)].
  - rewrite (loadAssignedConfig_resolves w local p a Hcur Hres).
    rewrite (loadLastKnownGoodConfig_resolves w local p a)
      by (congruence || assumption).
    do 7 eexists. split; [reflexivity|]. split; [reflexivity|]. tauto.
  - rewrite (loadAssignedConfig_AssignedFails w (Some local) src r e Hfail).
    assert (Hl : exists le, LkgFails (checkpointStore (cc w)) src le).
    { destruct Hfail as [e Hc | s st e Hc Hs]; eexists.
      - apply (LkgUnreadable _ e). congruence.
      - apply (LkgCheckpoint _ s st e); congruence. }
    destruct Hl as [le Hl].
    rewrite (loadLastKnownGoodConfig_LkgFails w (Some local) src le Hl).
    do 7 eexists. split; [reflexivity|]. split; [reflexivity|].
    split; discriminate.
Qed.

(** X18.  What [Bootstrap] graduates is what a later rollback finds: when
    the assigned configuration resolves, its trial is over and the store
    accepts the write, resolving last-known-good in the state [Bootstrap]
    leaves gives the configuration and the source [Bootstrap] ran on. *)
Theorem graduated_is_rollback_target
        (w : World) (now T : time.Time) (local a : KubeletConfiguration)
        (p : option RemoteConfigSource) :
  LocalConfig (cc w) local ->
  dynamicConfig (cc w) = true ->
  store.initializeErr (checkpointStore (cc w)) = None ->
  store.currentPtr (checkpointStore (cc w)) = Ok p ->
  Resolves (checkpointStore (cc w)) local p a ->
  store.currentModifiedAt (checkpointStore (cc w)) = Ok T ->
  time.Sub now T > ConfigTrialDuration a ->
  store.writeErr (checkpointStore (cc w)) = None ->
  exists w' w'',
    Bootstrap now w = Some ((Some a, None), w') /\
    loadLastKnownGoodConfig (Some local) w' = Some ((Some a, p, None), w'').
Proof.
  intros Hloc Hdyn Hinit Hcur Hres HT Hover Hw.
  rewrite (Bootstrap_assigned w now local p a Hdyn Hloc Hinit Hcur Hres).
  unfold trialOver. rewrite HT.
  destruct (Z.leb_spec (time.Sub now T) (ConfigTrialDuration a)); [lia|].
  cbn [negb]. eexists; eexists. split; [reflexivity|].
  apply loadLastKnownGoodConfig_resolves.
  - apply (graduated_pointer (assignedWorld p w) p Hw).
  - destruct (SetLastKnownGood_footprint (checkpointStore (cc w)) p)
      as (_ & F2 & _).
    destruct Hres as [|src c Hc]; [apply ResolvesLocal|].
    apply ResolvesRemote. unfold checkpointState in *. simpl.
    simpl in F2. rewrite F2. exact Hc.
Qed.

End Resolvers.

(** ** Running Bootstrap again *)

Section Again.
Import checkpoint.
Context {msgs : status.Messages} {validator : Validator}.

(** Each of the six ways is a way [Bootstrap] goes. *)
Lemma BootstrapRun_sound (w w' : World) (now : time.Time) r :
  BootstrapRun now w r w' -> Bootstrap now w = Some (r, w').
Proof.
  intros H.
  destruct H as [e He | local Hloc Hdyn | local e Hloc Hdyn Hinit
                | local p a Hloc Hdyn Hinit Hcur Hres
                | local src r e p c Hloc Hdyn Hinit Hfail Hlkg Hres
                | local src r e lsrc le Hloc Hdyn Hinit Hfail Hlf].
  - unfold Bootstrap, bind. now rewrite (loadLocalConfig_fails w e He).
  - unfold Bootstrap, bind. rewrite (loadLocalConfig_valid w local Hloc).
    unfold gets. rewrite Hdyn. reflexivity.
  - unfold Bootstrap, bind. rewrite (loadLocalConfig_valid w local Hloc).
    unfold gets. rewrite Hdyn. cbn [negb].
    rewrite initializeDynamicConfigDir_step, Hinit. reflexivity.
  - now apply (Bootstrap_assigned w now local p a).
  - rewrite (Bootstrap_fallback w now local src r e Hloc Hdyn Hinit Hfail).
    rewrite (loadLastKnownGoodConfig_resolves _ local p c) by assumption.
    reflexivity.
  - rewrite (Bootstrap_fallback w now local src r e Hloc Hdyn Hinit Hfail).
    rewrite (loadLastKnownGoodConfig_LkgFails _ (Some local) lsrc le)
      by exact Hlf.
    reflexivity.
Qed.

Lemma LocalConfig_same (c c' : Controller) (local : KubeletConfiguration) :
  defaultConfig c' = defaultConfig c ->
  fileLoader c' = fileLoader c ->
  LocalConfig c local -> LocalConfig c' local.
Proof.
  intros Hd Hl [Hv Hn | l kc Hv Hs Hk Hkv].
  - rewrite <- Hd. apply LocalDefaults; congruence.
  - apply (LocalFile c' l kc); congruence.
Qed.

Lemma Resolves_same (s s' : store.Store) (local a : KubeletConfiguration) p :
  store.blobs s' = store.blobs s ->
  Resolves s local p a -> Resolves s' local p a.
Proof.
  intros Hb [|src c Hc]; [apply ResolvesLocal|].
  apply ResolvesRemote. unfold checkpointState in *. now rewrite Hb.
Qed.

Lemma SetLastKnownGood_twice (s : store.Store) p :
  snd (store.SetLastKnownGood p (snd (store.SetLastKnownGood p s)))
  = snd (store.SetLastKnownGood p s).
Proof.
  unfold store.SetLastKnownGood.
  destruct (store.writeErr s) eqn:E; simpl; rewrite ?E; reflexivity.
Qed.

(** A run from the state a run ends in goes the same way, gives the same
    result and changes nothing more. *)
Lemma BootstrapRun_again (w w1 : World) (now : time.Time) r :
  BootstrapRun now w r w1 ->
  exists w2, BootstrapRun now w1 r w2 /\ cc w2 = cc w1.
Proof.
  intros H.
  destruct H as [e He | local Hloc Hdyn | local e Hloc Hdyn Hinit
                | local p a Hloc Hdyn Hinit Hcur Hres
                | local src r e p c Hloc Hdyn Hinit Hfail Hlkg Hres
                | local src r e lsrc le Hloc Hdyn Hinit Hfail Hlf].
  - exists w. split; [now apply RunLocalFailure|reflexivity].
  - eexists. split.
    + apply (RunStatic now _ local); [|exact Hdyn].
      now apply (LocalConfig_same (cc w)).
    + reflexivity.
  - eexists. split.
    + now apply (RunInitializeFailure now _ local e).
    + reflexivity.
  - destruct (SetLastKnownGood_footprint (checkpointStore (cc w)) p)
      as (F1 & F2 & F3 & F4 & F5 & F6).
    destruct (trialOver now (checkpointStore (cc w)) a) eqn:Ht.
    + eexists. split.
      * apply (RunAssigned now _ local p a); simpl.
        -- now apply (LocalConfig_same (cc w)).
        -- exact Hdyn.
        -- now rewrite F1.
        -- now rewrite F3.
        -- now apply (Resolves_same (checkpointStore (cc w))).
      * unfold trialOver in *. simpl. simpl in F4. rewrite F4, Ht.
        unfold graduated, assignedWorld, published, noted. simpl.
        rewrite SetLastKnownGood_twice. reflexivity.
    + eexists. split.
      * apply (RunAssigned now _ local p a); simpl; try assumption.
        now apply (LocalConfig_same (cc w)).
      * unfold trialOver in *. simpl. rewrite Ht. reflexivity.
  - eexists. split.
    + apply (RunRollback now _ local src r e p c); simpl; try assumption.
      now apply (LocalConfig_same (cc w)).
    + reflexivity.
  - eexists. split.
    + now apply (RunNoFallback now _ local src r e lsrc le).
    + reflexivity.
Qed.

(** X19.  [Bootstrap] is idempotent: run again at the same time in the
    state it left, it returns the same configuration or the same error,
    and leaves the published condition and the store as the first run left
    them. *)
Theorem Bootstrap_idempotent (w : World) (now : time.Time) :
  exists r w1 w2,
    Bootstrap now w = Some (r, w1) /\
    Bootstrap now w1 = Some (r, w2) /\
    cc w2 = cc w1.
Proof.
  destruct (Bootstrap_run w now) as (r & w1 & H & Hrun).
  destruct (BootstrapRun_again w w1 now r Hrun) as (w2 & Hrun2 & Hcc).
  exists r, w1, w2. split; [exact H|]. split; [|exact Hcc].
  now apply BootstrapRun_sound.
Qed.

(** X20.  What [Bootstrap] returns and what it publishes do not depend on
    the time of the run: the clock decides on graduation alone. *)
Theorem Bootstrap_result_ignores_clock (w : World) (now1 now2 : time.Time) :
  exists r w1 w2,
    Bootstrap now1 w = Some (r, w1) /\
    Bootstrap now2 w = Some (r, w2) /\
    configOK (cc w1) = configOK (cc w2).
Proof.
  destruct (Bootstrap_run w now1) as (r & w1 & H & Hrun).
  exists r, w1.
  destruct Hrun as [e He | local Hloc Hdyn | local e Hloc Hdyn Hinit
                   | local p a Hloc Hdyn Hinit Hcur Hres
                   | local src r e p c Hloc Hdyn Hinit Hfail Hlkg Hres
                   | local src r e lsrc le Hloc Hdyn Hinit Hfail Hlf];
    eexists; (split; [exact H|]);
    (split; [apply BootstrapRun_sound|]).
  - now apply RunLocalFailure.
  - reflexivity.
  - now apply (RunStatic now2 w local).
  - reflexivity.
  - now apply (RunInitializeFailure now2 w local e).
  - reflexivity.
  - now apply (RunAssigned now2 w local p a).
  - destruct (trialOver now1 (checkpointStore (cc w)) a),
             (trialOver now2 (checkpointStore (cc w)) a); reflexivity.
  - now apply (RunRollback now2 w local src r e p c).
  - reflexivity.
  - now apply (RunNoFallback now2 w local src r e lsrc le).
  - reflexivity.
Qed.

End Again.

(** ** Construction and start *)


Section Static.
Context {msgs : status.Messages} {validator : Validator}.

(** X22.  A controller made without a dynamic-configuration directory
    never touches the checkpoint store in [Bootstrap], and [StartSync]
    launches for it the condition loop alone, provided a client and a node
    name are given, and nothing otherwise. *)
Theorem static_controller
        (NewFsLoader : string -> Result configfiles.Loader)
        (NewFsStore : string -> store.Store)
        (join : string -> string -> string)
        (dflt : KubeletConfiguration) (file : string) (c : Controller) :
  NewController NewFsLoader NewFsStore join dflt file "" = (Some c, None) ->
  (forall now calls,
      exists r w',
        Bootstrap now {| cc := c; trace := calls |} = Some (r, w') /\
        trace w' = calls /\
        checkpointStore (cc w') = checkpointStore c) /\
  (forall clientIsNil nodeName,
      launched (StartSync clientIsNil nodeName c) =
        if clientIsNil then []
        else if String.eqb nodeName "" then []
             else [ConfigOKSyncLoop]) /\
  (forall clientIsNil nodeName,
      informerSet (StartSync clientIsNil nodeName c) = false).
Proof.
  intros H.
  assert (Hdyn : dynamicConfig c = false).
  { unfold NewController in H.
    destruct (0 <? String.length file)%nat;
      [destruct (NewFsLoader file)|]; inversion H; reflexivity. }
  split; [|split].
  - intros now calls.
    destruct (Bootstrap_run {| cc := c; trace := calls |} now)
      as (r & w' & Hb & Hrun).
    exists r, w'. split; [exact Hb|].
    inversion Hrun; subst; simpl in *; try congruence; split; reflexivity.
  - intros clientIsNil nodeName. unfold StartSync. rewrite Hdyn.
    destruct clientIsNil; [reflexivity|].
    destruct nodeName; reflexivity.
  - intros clientIsNil nodeName. unfold StartSync. rewrite Hdyn.
    destruct clientIsNil; [reflexivity|].
    destruct nodeName; reflexivity.
Qed.

End Static.

(** ** The further properties at work *)

Section MoreRuns.
Import checkpoint Examples Scenarios.
Local Existing Instance Examples.msgs.
Local Existing Instance Examples.validator.

Lemma Bootstrap_returns_valid_config_witness :
  ValidateKubeletConfiguration v2Cfg = None /\ (None : option error) = None.
Proof.
  refine (Bootstrap_returns_valid_config
            graduatingWorld (finalWorld (Bootstrap now graduatingWorld)
                                        graduatingWorld)
            now v2Cfg None _).
  reflexivity.
Defined.

Lemma Bootstrap_error_changes_nothing_witness :
  (None : option KubeletConfiguration) = None /\
  cc (finalWorld (Bootstrap now noFallbackWorld) noFallbackWorld)
    = cc noFallbackWorld.
Proof.
  refine (Bootstrap_error_changes_nothing
            noFallbackWorld _ now None
            "lkg-validate-failed:bad, error: invalid settings" _).
  reflexivity.
Defined.

Lemma Bootstrap_footprint_witness :
  store.currentPtr
    (checkpointStore
       (cc (finalWorld (Bootstrap now graduatingWorld) graduatingWorld)))
    = Ok (Some v2) /\
  store.lastKnownGoodPtr
    (checkpointStore
       (cc (finalWorld (Bootstrap now graduatingWorld) graduatingWorld)))
    = Ok (Some v2).
Proof.
  destruct (Bootstrap_footprint
              graduatingWorld
              (finalWorld (Bootstrap now graduatingWorld) graduatingWorld)
              now (Some v2Cfg, None))
    as (_ & _ & _ & _ & _ & _ & Hcur & _ & _ & Hlkg).
  - reflexivity.
  - split; [exact Hcur|]. destruct Hlkg as [Hlkg|Hlkg].
    + discriminate Hlkg.
    + exact Hlkg.
Defined.

Lemma Bootstrap_initializes_first_witness :
  exists calls,
    trace (finalWorld (Bootstrap now graduatingWorld) graduatingWorld)
      = (trace graduatingWorld ++ calls)%list /\
    (calls = [] \/
     exists rest, calls = store.CallInitialize :: rest /\
                  ~ In store.CallInitialize rest) /\
    (forall source, In (store.CallSetLastKnownGood source) calls ->
                    store.currentPtr (checkpointStore (cc graduatingWorld))
                      = Ok source).
Proof.
  refine (Bootstrap_initializes_first
            graduatingWorld _ now (Some v2Cfg, None) _).
  reflexivity.
Defined.

Lemma loadLocalConfig_success_witness :
  (None : option error) = None /\ fileWorld = fileWorld /\
  ValidateKubeletConfiguration (defaultConfig (cc fileWorld)) = None /\
  ValidateKubeletConfiguration v1Cfg = None /\
  configfiles.Load {| configfiles.Load := Ok v1Cfg |} = Ok v1Cfg.
Proof.
  refine (loadLocalConfig_success fileWorld fileWorld v1Cfg None _).
  reflexivity.
Defined.

Lemma Bootstrap_local_failure_witness :
  Bootstrap now loaderFailureWorld
    = Some ((None, Some "no such file"), loaderFailureWorld).
Proof.
  apply (Bootstrap_local_failure loaderFailureWorld now "no such file").
  apply (FailsFileLoad _ {| configfiles.Load := Err "no such file" |});
    reflexivity.
Defined.

Lemma Bootstrap_initialize_failure_witness :
  exists w',
    Bootstrap now initFailureWorld
      = Some ((None, Some "permission denied"), w') /\
    cc w' = cc initFailureWorld /\
    trace w' = [store.CallInitialize].
Proof.
  refine (Bootstrap_initialize_failure
            initFailureWorld now localCfg "permission denied" _ _ _).
  - apply localCfg_is_local.
  - reflexivity.
  - reflexivity.
Defined.

Lemma Bootstrap_remote_assigned_witness :
  exists w',
    Bootstrap now graduatingWorld = Some ((Some v2Cfg, None), w') /\
    configOK (cc w') =
      Some {| status.message := "using current: v2";
              status.reason := "remote-ok";
              status.condStatus := apiv1.ConditionTrue |}.
Proof.
  refine (Bootstrap_remote_assigned
            graduatingWorld now localCfg v2Cfg v2 _ _ _ _ _);
    try reflexivity.
  apply localCfg_is_local.
Defined.

Lemma Bootstrap_unreadable_timestamp_witness :
  exists w',
    Bootstrap now unreadableTimestampWorld = Some ((Some v2Cfg, None), w') /\
    checkpointStore (cc w') = checkpointStore (cc unreadableTimestampWorld) /\
    trace w' =
      [store.CallInitialize; store.CallCurrent; store.CallLoad "v2";
       store.CallCurrentModified].
Proof.
  refine (Bootstrap_unreadable_timestamp
            unreadableTimestampWorld now localCfg v2Cfg (Some v2)
            "stat failed" _ _ _ _ _ _);
    try reflexivity.
  - apply localCfg_is_local.
  - apply ResolvesRemote. reflexivity.
Defined.

Lemma Bootstrap_unreadable_current_witness :
  exists w',
    Bootstrap now unreadableWorld = Some ((Some v1Cfg, None), w') /\
    configOK (cc w') =
      Some {| status.message := "using last-known-good: v1";
              status.reason := "load-failed:unknown";
              status.condStatus := apiv1.ConditionFalse |} /\
    checkpointStore (cc w') = checkpointStore (cc unreadableWorld).
Proof.
  refine (Bootstrap_unreadable_current
            unreadableWorld now localCfg v1Cfg (Some v1)
            "input/output error" _ _ _ _ _ _);
    try reflexivity.
  - apply localCfg_is_local.
  - apply ResolvesRemote. reflexivity.
Defined.

Lemma Bootstrap_no_fallback_error_witness :
  exists w',
    Bootstrap now noFallbackWorld
      = Some ((None, Some "lkg-validate-failed:bad, error: invalid settings"),
              w') /\
    cc w' = cc noFallbackWorld.
Proof.
  refine (Bootstrap_no_fallback_error
            noFallbackWorld now localCfg (Some garbled) (Some bad)
            (failReason StageParse "garbled") "unexpected end of input"
            _ _ _ _ _ _).
  - apply localCfg_is_local.
  - reflexivity.
  - reflexivity.
  - refine (AssignedCheckpoint _ garbled StageParse _ _ _); reflexivity.
  - refine (LkgCheckpoint _ bad StageValidate "invalid settings" _ _);
      reflexivity.
Defined.

Lemma Bootstrap_condition_polarity_witness :
  exists k,
    configOK (cc (finalWorld (Bootstrap now rollbackWorld) rollbackWorld))
      = Some k /\
    status.condStatus k <> apiv1.ConditionUnknown /\
    (status.condStatus k = apiv1.ConditionFalse ->
     exists src e,
       AssignedFails (checkpointStore (cc rollbackWorld)) src
                     (status.reason k) e) /\
    (status.condStatus k = apiv1.ConditionTrue ->
     dynamicConfig (cc rollbackWorld) = true ->
     exists local p,
       LocalConfig (cc rollbackWorld) local /\
       store.currentPtr (checkpointStore (cc rollbackWorld)) = Ok p /\
       Resolves (checkpointStore (cc rollbackWorld)) local p v1Cfg).
Proof.
  refine (Bootstrap_condition_polarity rollbackWorld _ now v1Cfg None _).
  reflexivity.
Defined.

Lemma graduate_twice_witness :
  exists w2,
    graduateAssignedToLastKnownGood
      (finalWorld (graduateAssignedToLastKnownGood graduatingWorld)
                  graduatingWorld) = Some (None, w2) /\
    checkpointStore (cc w2)
      = checkpointStore
          (cc (finalWorld (graduateAssignedToLastKnownGood graduatingWorld)
                          graduatingWorld)).
Proof.
  refine (graduate_twice graduatingWorld _ _). reflexivity.
Defined.

Lemma inTrial_exact_witness :
  exists w',
    inTrial now (10 * minute) graduatingWorld = Some ((false, None), w') /\
    cc w' = cc graduatingWorld.
Proof.
  refine (inTrial_exact graduatingWorld now modified (10 * minute) _ _).
  - reflexivity.
  - vm_compute. split; discriminate.
Defined.

Lemma resolvers_agree_witness :
  exists cfg src r err lerr w1 w2,
    loadAssignedConfig (Some localCfg) settledWorld
      = Some ((cfg, src, r, err), w1) /\
    loadLastKnownGoodConfig (Some localCfg) settledWorld
      = Some ((cfg, src, lerr), w2) /\
    (err = None <-> lerr = None).
Proof.
  apply (resolvers_agree settledWorld localCfg). reflexivity.
Defined.

Lemma graduated_is_rollback_target_witness :
  exists w' w'',
    Bootstrap now graduatingWorld = Some ((Some v2Cfg, None), w') /\
    loadLastKnownGoodConfig (Some localCfg) w'
      = Some ((Some v2Cfg, Some v2, None), w'').
Proof.
  refine (graduated_is_rollback_target
            graduatingWorld now modified localCfg v2Cfg (Some v2)
            _ _ _ _ _ _ _ _);
    try reflexivity.
  - apply localCfg_is_local.
  - apply ResolvesRemote. reflexivity.
Defined.

Lemma static_controller_witness :
  (forall t calls,
      exists r w',
        Bootstrap t {| cc := plainController; trace := calls |}
          = Some (r, w') /\
        trace w' = calls /\
        checkpointStore (cc w') = checkpointStore plainController) /\
  (forall clientIsNil nodeName,
      launched (StartSync clientIsNil nodeName plainController) =
        if clientIsNil then []
        else if String.eqb nodeName "" then []
             else [ConfigOKSyncLoop]) /\
  (forall clientIsNil nodeName,
      informerSet (StartSync clientIsNil nodeName plainController) = false).
Proof.
  refine (static_controller newLoader newStore join localCfg "" 
            plainController _).
  reflexivity.
Defined.

End MoreRuns.
